(** * Gemini WebAPI server (src/gemini_webapi/server.py): a shallow embedding

    The FastAPI handlers are embedded as computations in a state-and-exception
    monad over the process state: the module-level [client_cache] dictionary,
    the [GeminiClient] objects it refers to (by identity), the temporary files
    on disk and the trace of calls made to the outside world.  Everything that
    lives outside server.py (the upstream client, the file system, the HTTP
    framework) is taken as a record of oracles, [World]. *)

From Stdlib Require Import String Ascii.
From stdpp Require Import gmap strings list fin_maps.

Open Scope string_scope.

(** ** Python string operations used by the server *)

Module PyStr.

(** [str.isspace] on one character of a latin-1 decoded header. *)
Definition isspace (c : ascii) : bool :=
  let n := nat_of_ascii c in
  (((9 <=? n) && (n <=? 13)) || ((28 <=? n) && (n <=? 32))
   || (n =? 133) || (n =? 160))%nat.

Fixpoint lstrip (s : string) : string :=
  match s with
  | EmptyString => EmptyString
  | String c r => if isspace c then lstrip r else s
  end.

Fixpoint rstrip (s : string) : string :=
  match s with
  | EmptyString => EmptyString
  | String c r =>
      match rstrip r with
      | EmptyString => if isspace c then EmptyString else String c EmptyString
      | r' => String c r'
      end
  end.

(** [s.strip()] *)
Definition strip (s : string) : string := rstrip (lstrip s).

(** [s.split(sep)] for a one-character separator: never the empty list. *)
Fixpoint split (sep : ascii) (s : string) : list string :=
  match s with
  | EmptyString => [EmptyString]
  | String c r =>
      if Ascii.eqb c sep then EmptyString :: split sep r
      else match split sep r with
           | [] => [String c EmptyString]
           | w :: ws => String c w :: ws
           end
  end.

(** [s.split(sep, 1)]: at most one cut, at the first separator. *)
Fixpoint split1 (sep : ascii) (s : string) : list string :=
  match s with
  | EmptyString => [EmptyString]
  | String c r =>
      if Ascii.eqb c sep then [EmptyString; r]
      else match split1 sep r with
           | w :: ws => String c w :: ws
           | [] => [String c EmptyString]
           end
  end.

(** [s.startswith(p)] *)
Definition startswith (s p : string) : bool := String.prefix p s.

(** [needle in hay] *)
Fixpoint contains (needle hay : string) : bool :=
  String.prefix needle hay
  || match hay with
     | EmptyString => false
     | String _ r => contains needle r
     end.

(** Truthiness of a [str]. *)
Definition truthy (s : string) : bool :=
  match s with EmptyString => false | _ => true end.

(** Truthiness of an [Optional[str]]: [None] and [""] are both falsy. *)
Definition otruthy (o : option string) : bool :=
  match o with Some s => truthy s | None => false end.

(** [o or ''] *)
Definition or_empty (o : option string) : string :=
  match o with
  | Some s => if truthy s then s else ""
  | None => ""
  end.

End PyStr.

(** ** Data of the server *)

(** [constants.Model], as far as server.py names its members. *)
Inductive Model := G_3_0_PRO | G_2_5_PRO | G_2_5_FLASH | UNSPECIFIED.

(** [model_mapping.get(name, Model.G_2_5_FLASH)] *)
Definition model_mapping_get (name : string) : Model :=
  if String.eqb name "gemini-3.0-pro" then G_3_0_PRO
  else if String.eqb name "gemini-2.5-pro" then G_2_5_PRO
  else if String.eqb name "gemini-2.5-flash" then G_2_5_FLASH
  else if String.eqb name "unspecified" then UNSPECIFIED
  else G_2_5_FLASH.

Record GenerateRequest := { gr_prompt : string; gr_model : string }.

Record ChatRequest := {
  prompt : string;
  model : string;
  chat_id : option string;
  reply_id : option string;
  reply_candidate_id : option string
}.

Record ImageGenerateRequest := { ig_prompt : string; ig_model : string }.

(** Exceptions: FastAPI's [HTTPException] and every other [Exception],
    of which the handlers only ever use [str(e)]. *)
Inductive exn :=
| HTTPException (status_code : nat) (detail : string)
| Exception (msg : string).

Inductive outcome (A : Type) :=
| Return (a : A)
| Raise (e : exn).
Arguments Return {A} a.
Arguments Raise {A} e.

(** An uploaded form file: its name and what [await file.read()] gives. *)
Record UploadFile := { filename : string; read : outcome string }.

(** The incoming [Request], of which only the cookie header is read. *)
Record Request := { cookie_header : option string }.

(** An image of an upstream answer ([types.Image] and its subclasses). *)
Record Image := {
  url : string;
  title : string;
  alt : string;
  has_proxy : bool  (* hasattr(img, "proxy") *)
}.

(** An upstream answer ([types.ModelOutput]), as the handlers read it. *)
Record ModelOutput := {
  text : string;
  thoughts : option string;
  images : list Image;
  metadata : list string;
  rcid : string
}.

(** The dictionaries appended to [images] by the handlers. *)
Record image_dict := {
  d_url : string;
  d_title : string;
  d_alt : string;
  d_type : string
}.

Record chat_metadata_dict := {
  cm_chat_id : option string;
  cm_reply_id : option string;
  cm_reply_candidate_id : string
}.

Record GenerateResponse := {
  g_text : string;
  g_thoughts : option string;
  g_images : list image_dict;
  g_chat_metadata : option chat_metadata_dict
}.

Record ChatResponse := {
  c_text : string;
  c_thoughts : option string;
  c_images : list image_dict;
  c_chat_id : string;
  c_reply_id : string;
  c_reply_candidate_id : string
}.

(** The body of /test-image-gen. *)
Inductive test_dict :=
| TestOk (t_text : string) (images_count : nat)
         (t_images : list (string * string)) (t_thoughts : option string)
| TestFailed (error : string).

(** What a handler returns to the framework. *)
Inductive response :=
| RGenerate (r : GenerateResponse)
| RChat (r : ChatResponse)
| RTest (r : test_dict)
| RBytes (content : string) (media_type : string)
         (content_disposition : string) (cache_control : string).

(** A [GeminiClient] object.  The class is defined in client.py; server.py
    constructs it from the two cookies and reads [_running]. *)
Record GeminiClient := {
  secure_1psid : string;
  secure_1psidts : option string;
  _running : bool
}.

(** Calls that leave the server, in the order they were made.  Clients are
    named by their address in the object store. *)
Inductive event :=
| EInit (client : nat)
| EGenerate (client : nat) (p : string) (files : list string) (m : Model)
| EStartChat (client : nat) (md : option (list string)) (m : Model)
| ESendMessage (client : nat) (p : string)
| EClose (client : nat)
| ESave (client : nat) (u : string) (dir : string)
| EMkTemp (path : string)
| EUnlink (path : string).

(** The process state. *)
Record state := {
  client_cache : gmap string nat;   (* cache_key -> client object *)
  objects : list GeminiClient;      (* the client objects ever constructed *)
  temp_files : list string;         (* temporary files present on disk *)
  trace : list event
}.

(** The world outside server.py.  Each oracle sees the trace so far, so an
    answer may depend on everything that happened before. *)
Record World := {
  (* await client.init(timeout=30, auto_close=False, auto_refresh=False) *)
  w_init : list event -> nat -> string -> option string -> outcome unit;
  (* await client.generate_content(prompt=, files=, model=) *)
  w_generate : list event -> nat -> string -> list string -> Model
               -> outcome ModelOutput;
  (* await chat.send_message(prompt) on start_chat(metadata=, model=) *)
  w_send_message : list event -> nat -> option (list string) -> Model
                   -> string -> outcome ModelOutput;
  (* await client.close() *)
  w_close : list event -> nat -> outcome unit;
  (* tempfile.NamedTemporaryFile(delete=False, suffix=): the new path *)
  w_mktemp : list event -> string -> outcome string;
  (* os.unlink(path) *)
  w_unlink : list event -> string -> outcome unit;
  (* Path(name).suffix *)
  w_suffix : string -> string;
  (* tempfile.TemporaryDirectory() *)
  w_tempdir : list event -> string;
  (* await GeneratedImage(url=, cookies=).save(path=, filename=) *)
  w_save : list event -> nat -> string -> string -> outcome (option string);
  (* os.path.exists(path) and the bytes read from it *)
  w_exists : string -> bool;
  w_read_file : string -> outcome string;
  (* str(e) for an HTTPException *)
  w_http_str : nat -> string -> string
}.

(** ** The state-and-exception monad of the handlers *)

Definition M (A : Type) : Type := state -> outcome A * state.

Definition ret {A} (a : A) : M A := fun s => (Return a, s).

Definition raise {A} (e : exn) : M A := fun s => (Raise e, s).

Definition bind {A B} (m : M A) (k : A -> M B) : M B :=
  fun s =>
    match m s with
    | (Return a, s') => k a s'
    | (Raise e, s') => (Raise e, s')
    end.

Notation "'let*' x ':=' m 'in' k" := (bind m (fun x => k))
  (at level 10, x pattern, m at level 100, k at level 200, only parsing).

(** [try: m  except Exception as e: h e] *)
Definition try_except {A} (m : M A) (h : exn -> M A) : M A :=
  fun s =>
    match m s with
    | (Return a, s') => (Return a, s')
    | (Raise e, s') => h e s'
    end.

(** [try: m  finally: fin].  An exception of [fin] replaces whatever [m]
    returned or raised. *)
Definition try_finally {A} (m : M A) (fin : M unit) : M A :=
  fun s =>
    match m s with
    | (o, s') =>
        match fin s' with
        | (Return _, s'') => (o, s'')
        | (Raise e, s'') => (Raise e, s'')
        end
    end.

Definition lift {A} (o : outcome A) : M A := fun s => (o, s).

Definition set_client_cache (c : gmap string nat) (s : state) : state :=
  {| client_cache := c; objects := objects s;
     temp_files := temp_files s; trace := trace s |}.

Definition set_objects (o : list GeminiClient) (s : state) : state :=
  {| client_cache := client_cache s; objects := o;
     temp_files := temp_files s; trace := trace s |}.

Definition set_temp_files (f : list string) (s : state) : state :=
  {| client_cache := client_cache s; objects := objects s;
     temp_files := f; trace := trace s |}.

Definition log (e : event) (s : state) : state :=
  {| client_cache := client_cache s; objects := objects s;
     temp_files := temp_files s; trace := trace s ++ [e] |}.

(** [client._running] *)
Definition is_running (s : state) (client : nat) : bool :=
  match objects s !! client with
  | Some o => _running o
  | None => false
  end.

Definition set_running (client : nat) (b : bool) (s : state) : state :=
  match objects s !! client with
  | Some o =>
      set_objects (<[client := {| secure_1psid := secure_1psid o;
                                  secure_1psidts := secure_1psidts o;
                                  _running := b |}]> (objects s)) s
  | None => s
  end.

(** The HTTP status the framework answers with. *)
Definition status_of {A} (o : outcome A) : nat :=
  match o with
  | Return _ => 200
  | Raise (HTTPException code _) => code
  | Raise (Exception _) => 500
  end.

(** The process starts with an empty cache. *)
Definition initial_state : state :=
  {| client_cache := ∅; objects := []; temp_files := []; trace := [] |}.

(** ** Cookie extraction (pure) *)

(** [cookie.split("=", 1)[1]] *)
Definition cookie_value (cookie : string) : string :=
  default "" (PyStr.split1 "=" cookie !! 1%nat).

(** One round of the loop over the segments of the header. *)
Definition extract_step (acc : option string * option string)
    (cookie : string) : option string * option string :=
  let cookie := PyStr.strip cookie in
  if PyStr.startswith cookie "__Secure-1PSID=" then
    (Some (cookie_value cookie), acc.2)
  else if PyStr.startswith cookie "__Secure-1PSIDTS=" then
    (acc.1, Some (cookie_value cookie))
  else acc.

Definition extract_cookies_from_request (request : Request)
    : option string * option string :=
  let header := default "" (cookie_header request) in
  fold_left extract_step (PyStr.split ";" header) (None, None).

(** [f"{secure_1psid}:{secure_1psidts or ''}"] *)
Definition cache_key (secure_1psid : string) (secure_1psidts : option string)
    : string :=
  secure_1psid ++ ":" ++ PyStr.or_empty secure_1psidts.

(** ** Response shaping (pure) *)

(** The image loop of /generate, /chat, /edit-image and /generate-with-files. *)
Definition shape_images (imgs : list Image) : list image_dict :=
  map (fun img =>
         {| d_url := url img; d_title := title img; d_alt := alt img;
            d_type := if has_proxy img then "web" else "generated" |}) imgs.

Definition generated_marker : string :=
  "googleusercontent.com/image_generation_content".

(** The image loop of /generate-image: images without a URL are skipped.
    Every upstream image has [url], [title] and [alt], so the [hasattr] test
    holds and the [getattr] defaults are never taken. *)
Definition shape_generated_images (imgs : list Image) : list image_dict :=
  map (fun img =>
         {| d_url := url img; d_title := title img; d_alt := alt img;
            d_type := if PyStr.contains generated_marker (url img)
                      then "generated" else "web" |})
      (filter (fun img => PyStr.truthy (url img) = true) imgs).

Definition chat_metadata_of (response : ModelOutput) : chat_metadata_dict :=
  {| cm_chat_id := metadata response !! 0%nat;
     cm_reply_id := metadata response !! 1%nat;
     cm_reply_candidate_id := rcid response |}.

Definition generate_response (imgs : list image_dict) (response : ModelOutput)
    : GenerateResponse :=
  {| g_text := text response; g_thoughts := thoughts response;
     g_images := imgs; g_chat_metadata := Some (chat_metadata_of response) |}.

Definition chat_response (response : ModelOutput) : ChatResponse :=
  {| c_text := text response; c_thoughts := thoughts response;
     c_images := shape_images (images response);
     c_chat_id := default "" (metadata response !! 0%nat);
     c_reply_id := default "" (metadata response !! 1%nat);
     c_reply_candidate_id := rcid response |}.

(** The [metadata] list built by /chat from the three optional fields. *)
Definition chat_metadata_list (request : ChatRequest) : list string :=
  (if PyStr.otruthy (chat_id request)
   then [default "" (chat_id request)] else [])
  ++ (if PyStr.otruthy (reply_id request)
      then [default "" (reply_id request)] else [])
  ++ (if PyStr.otruthy (reply_candidate_id request)
      then [default "" (reply_candidate_id request)] else []).

(** [metadata if metadata else None] *)
Definition start_chat_metadata (request : ChatRequest)
    : option (list string) :=
  match chat_metadata_list request with
  | [] => None
  | md => Some md
  end.

(** [prompts_to_try] of /generate-image. *)
Definition prompts_to_try (p : string) : list string :=
  [ "Create an image of " ++ p;
    "Generate a picture showing " ++ p;
    "Draw " ++ p;
    "Make an image: " ++ p ].

(** [last_error or "Failed to generate image with all prompt variations"] *)
Definition last_error_or_default (last_error : option string) : string :=
  if PyStr.otruthy last_error then default "" last_error
  else "Failed to generate image with all prompt variations".

Definition missing_cookie_detail : string :=
  "Missing required cookie: __Secure-1PSID. Please provide Gemini cookies in the Cookie header.".

Definition missing_cookie_short : string :=
  "Missing required cookie: __Secure-1PSID".

(** ** The handlers *)

Section Server.

Context (W : World).

(** [str(e)] *)
Definition str_exn (e : exn) : string :=
  match e with
  | Exception msg => msg
  | HTTPException code detail => w_http_str W code detail
  end.

(** Modelled from the spec: the constructor of [GeminiClient] (client.py is
    not under src/).  [GeminiClient(secure_1psid=, secure_1psidts=)] gives a
    new object whose liveness flag is still false. *)
Definition new_client (psid : string) (psidts : option string) : M nat :=
  fun s =>
    (Return (length (objects s)),
     set_objects (objects s ++ [{| secure_1psid := psid;
                                   secure_1psidts := psidts;
                                   _running := false |}]) s).

(** Modelled from the spec: [GeminiClient.init] (client.py is not under
    src/).  [await client.init(timeout=30, auto_close=False,
    auto_refresh=False)] succeeds or raises as the world decides; a session
    that was initialised has a true liveness flag. *)
Definition client_init (client : nat) (psid : string)
    (psidts : option string) : M unit :=
  fun s =>
    match w_init W (trace s) client psid psidts with
    | Return _ => (Return (), set_running client true (log (EInit client) s))
    | Raise e => (Raise e, log (EInit client) s)
    end.

(** [await client.generate_content(prompt=, files=, model=)].  The call is
    logged and answered by the world.  What the upstream side does to the
    liveness of a session is not part of the call here: it is the step
    [liveness_drift] between two requests. *)
Definition client_generate_content (client : nat) (p : string)
    (files : list string) (m : Model) : M ModelOutput :=
  fun s => (w_generate W (trace s) client p files m,
            log (EGenerate client p files m) s).

(** [chat = client.start_chat(metadata=, model=)] followed by
    [await chat.send_message(prompt)]. *)
Definition client_chat (client : nat) (md : option (list string))
    (m : Model) (p : string) : M ModelOutput :=
  fun s =>
    let s1 := log (EStartChat client md m) s in
    (w_send_message W (trace s1) client md m p,
     log (ESendMessage client p) s1).

(** Modelled from the spec: [GeminiClient.close] (client.py is not under
    src/).  [await client.close()] returns or raises as the world decides;
    a closed session is no longer live. *)
Definition client_close (client : nat) : M unit :=
  fun s =>
    (w_close W (trace s) client,
     set_running client false (log (EClose client) s)).

(** [tempfile.NamedTemporaryFile(delete=False, suffix=)]: the file exists
    from here on. *)
Definition named_temporary_file (suffix : string) : M string :=
  fun s =>
    match w_mktemp W (trace s) suffix with
    | Return path =>
        (Return path,
         set_temp_files (path :: temp_files s) (log (EMkTemp path) s))
    | Raise e => (Raise e, s)
    end.

(** [os.unlink(path)] *)
Definition os_unlink (path : string) : M unit :=
  fun s =>
    match w_unlink W (trace s) path with
    | Return _ =>
        (Return (),
         set_temp_files (filter (fun p => p ≠ path) (temp_files s))
           (log (EUnlink path) s))
    | Raise e => (Raise e, log (EUnlink path) s)
    end.

(** *** The session cache *)

Definition get_client_for_cookies (secure_1psid : string)
    (secure_1psidts : option string) : M nat :=
  let key := cache_key secure_1psid secure_1psidts in
  let create : M nat :=
    let* client := new_client secure_1psid secure_1psidts in
    try_except
      (let* _ := client_init client secure_1psid secure_1psidts in
       let* _ := (fun s => (Return (),
                    set_client_cache (<[key := client]> (client_cache s)) s)) in
       ret client)
      (fun e =>
         raise (HTTPException 401
                  ("Failed to initialize Gemini client with provided cookies: "
                   ++ str_exn e)))
  in
  fun s =>
    match client_cache s !! key with
    | Some client =>
        if is_running s client then (Return client, s)
        else create (set_client_cache (delete key (client_cache s)) s)
    | None => create s
    end.

(** The closing loop of [shutdown_event], over [client_cache.values()].
    The finite map lists its entries in its own order, not in the order of
    insertion; the order only matters when a [close] raises midway. *)
Fixpoint close_running (clients : list nat) : M unit :=
  match clients with
  | [] => ret ()
  | client :: rest =>
      let* _ := (fun s => if is_running s client then client_close client s
                          else (Return (), s)) in
      close_running rest
  end.

Definition shutdown_event : M unit :=
  let* _ := (fun s =>
               close_running (map_to_list (client_cache s)).*2 s) in
  fun s => (Return (), set_client_cache ∅ s).

(** *** The common prelude of the handlers *)

(** Cookies, the 400 on a missing [__Secure-1PSID], then the client. *)
Definition require_client (http_request : Request) (detail : string)
    : M nat :=
  let '(req_psid, req_psidts) := extract_cookies_from_request http_request in
  if negb (PyStr.otruthy req_psid) then raise (HTTPException 400 detail)
  else get_client_for_cookies (default "" req_psid) req_psidts.

(** *** POST /generate *)
Definition generate_content (request : GenerateRequest)
    (http_request : Request) : M response :=
  let* current_client := require_client http_request missing_cookie_detail in
  let m := model_mapping_get (gr_model request) in
  try_except
    (let* response :=
       client_generate_content current_client (gr_prompt request) [] m in
     ret (RGenerate (generate_response (shape_images (images response))
                       response)))
    (fun e => raise (HTTPException 500
                       ("Failed to generate content: " ++ str_exn e))).

(** *** POST /chat *)
Definition chat_with_history (request : ChatRequest)
    (http_request : Request) : M response :=
  let* current_client := require_client http_request missing_cookie_detail in
  let m := model_mapping_get (model request) in
  try_except
    (let* response :=
       client_chat current_client (start_chat_metadata request) m
         (prompt request) in
     ret (RChat (chat_response response)))
    (fun e => raise (HTTPException 500 ("Failed to chat: " ++ str_exn e))).

(** *** POST /generate-image *)

(** The loop over [prompts_to_try].  [inl] is the [return] from inside the
    loop, [inr] the value of [last_error] when the loop runs out. *)
Fixpoint try_prompts (client : nat) (m : Model) (prompts : list string)
    (last_error : option string) : M (GenerateResponse + option string) :=
  match prompts with
  | [] => ret (inr last_error)
  | prompt_variation :: rest =>
      let* r :=
        try_except
          (let* response :=
             client_generate_content client prompt_variation [] m in
           match shape_generated_images (images response) with
           | [] => ret (inr (Some ("No images generated with prompt: "
                                   ++ prompt_variation)))
           | imgs => ret (inl (generate_response imgs response))
           end)
          (fun e => ret (inr (Some (str_exn e)))) in
      match r with
      | inl resp => ret (inl resp)
      | inr last_error' => try_prompts client m rest last_error'
      end
  end.

Definition generate_image (request : ImageGenerateRequest)
    (http_request : Request) : M response :=
  let* current_client := require_client http_request missing_cookie_detail in
  let m := model_mapping_get (ig_model request) in
  try_except
    (let* r := try_prompts current_client m
                 (prompts_to_try (ig_prompt request)) None in
     match r with
     | inl resp => ret (RGenerate resp)
     | inr last_error => raise (Exception (last_error_or_default last_error))
     end)
    (fun e => raise (HTTPException 500
                       ("Failed to generate image: " ++ str_exn e))).

(** *** POST /test-image-gen
    (the ["error_type"] entry of the failure dictionary is left out) *)
Definition test_image_generation (http_request : Request) : M response :=
  let* current_client := require_client http_request missing_cookie_short in
  try_except
    (let* response :=
       client_generate_content current_client
         "Create a simple drawing of a red apple" [] G_2_5_FLASH in
     ret (RTest (TestOk (text response) (length (images response))
                   (map (fun img => (url img, title img)) (images response))
                   (thoughts response))))
    (fun e => ret (RTest (TestFailed (str_exn e)))).

(** *** POST /edit-image *)

(** The [with tempfile.NamedTemporaryFile(...)] block: the file is created,
    then the upload is read and written into it. *)
Definition stage_upload (file : UploadFile) : M string :=
  let* path := named_temporary_file (w_suffix W (filename file)) in
  let* _ := lift (read file) in
  ret path.

Definition edit_image (p : string) (model_name : string)
    (image : UploadFile) (http_request : Request) : M response :=
  let* current_client := require_client http_request missing_cookie_detail in
  let model_enum := model_mapping_get model_name in
  try_except
    (let* temp_file_path := stage_upload image in
     try_finally
       (let* response :=
          client_generate_content current_client
            ("Edit this image: " ++ p) [temp_file_path] model_enum in
        ret (RGenerate (generate_response (shape_images (images response))
                          response)))
       (os_unlink temp_file_path))
    (fun e => raise (HTTPException 500
                       ("Failed to edit image: " ++ str_exn e))).

(** *** POST /generate-with-files *)

(** The staging loop.  It hands back the local list [temp_files] as it
    stands when the loop ends or is left by an exception, together with
    that exception. *)
Fixpoint stage_files (files : list UploadFile) (staged : list string)
    : M (list string * option exn) :=
  match files with
  | [] => ret (staged, None)
  | file :: rest =>
      fun s =>
        match stage_upload file s with
        | (Return path, s') => stage_files rest (staged ++ [path]) s'
        | (Raise e, s') => (Return (staged, Some e), s')
        end
  end.

(** The [finally] loop: every [os.unlink] sits in its own [try/except: pass]. *)
Fixpoint cleanup_temp_files (paths : list string) : M unit :=
  match paths with
  | [] => ret ()
  | temp_file_path :: rest =>
      let* _ := try_except (os_unlink temp_file_path) (fun _ => ret ()) in
      cleanup_temp_files rest
  end.

Definition generate_with_files (p : string) (model_name : string)
    (files : list UploadFile) (http_request : Request) : M response :=
  let* current_client := require_client http_request missing_cookie_detail in
  let model_enum := model_mapping_get model_name in
  let* staging := stage_files files [] in
  let '(staged, failure) := staging in
  try_finally
    (try_except
       (match failure with
        | Some e => raise e
        | None =>
            let* response :=
              client_generate_content current_client p staged model_enum in
            ret (RGenerate (generate_response
                              (shape_images (images response)) response))
        end)
       (fun e => raise (HTTPException 500
                          ("Failed to generate content with files: "
                           ++ str_exn e))))
    (cleanup_temp_files staged).

(** *** GET /download-image *)

(** [GeneratedImage(url=, title=, cookies=current_client.cookies)] and
    [await generated_image.save(path=temp_dir, filename="temp_image.png")]
    inside [with tempfile.TemporaryDirectory() as temp_dir]; one oracle
    answers for the construction and the save together. *)
Definition save_image (client : nat) (u : string) : M (option string) :=
  fun s =>
    let temp_dir := w_tempdir W (trace s) in
    (w_save W (trace s) client u temp_dir, log (ESave client u temp_dir) s).

Definition download_image (u : string) (http_request : Request)
    : M response :=
  let '(req_psid, req_psidts) := extract_cookies_from_request http_request in
  if negb (PyStr.otruthy req_psid) then
    raise (HTTPException 400 missing_cookie_short)
  else
    try_except
      (let* current_client :=
         get_client_for_cookies (default "" req_psid) req_psidts in
       let* saved_path := save_image current_client u in
       match saved_path with
       | Some path =>
           if PyStr.truthy path && w_exists W path then
             let* image_content := lift (w_read_file W path) in
             ret (RBytes image_content "image/png" "inline"
                    "public, max-age=3600")
           else raise (HTTPException 500 "Failed to save image")
       | None => raise (HTTPException 500 "Failed to save image")
       end)
      (fun e => raise (HTTPException 500
                         ("Error downloading image: " ++ str_exn e))).

(** *** The routes that need the caller's cookies *)

Inductive api_call :=
| PostGenerate (request : GenerateRequest)
| PostChat (request : ChatRequest)
| PostGenerateImage (request : ImageGenerateRequest)
| PostTestImageGen
| PostEditImage (p : string) (model_name : string) (image : UploadFile)
| PostGenerateWithFiles (p : string) (model_name : string)
                        (files : list UploadFile)
| GetDownloadImage (u : string).

Definition handle (call : api_call) (http_request : Request) : M response :=
  match call with
  | PostGenerate request => generate_content request http_request
  | PostChat request => chat_with_history request http_request
  | PostGenerateImage request => generate_image request http_request
  | PostTestImageGen => test_image_generation http_request
  | PostEditImage p m image => edit_image p m image http_request
  | PostGenerateWithFiles p m files =>
      generate_with_files p m files http_request
  | GetDownloadImage u => download_image u http_request
  end.

End Server.

(** ** Notions used to state the properties *)

(** The fields of a chat request that are present (not [None]), in order. *)
Definition present_fields (request : ChatRequest) : list string :=
  omap id [chat_id request; reply_id request; reply_candidate_id request].

(** A request that supplies the same fields, with a present-but-empty field
    read as absent. *)
Definition blank_as_absent (o : option string) : option string :=
  match o with
  | Some s => if PyStr.truthy s then Some s else None
  | None => None
  end.

Definition normalise_chat (request : ChatRequest) : ChatRequest :=
  {| prompt := prompt request; model := model request;
     chat_id := blank_as_absent (chat_id request);
     reply_id := blank_as_absent (reply_id request);
     reply_candidate_id := blank_as_absent (reply_candidate_id request) |}.

(** The state after [s1] in which nothing but liveness flags has changed
    (the upstream side may invalidate a session at any time). *)
Definition credentials (o : GeminiClient) : string * option string :=
  (secure_1psid o, secure_1psidts o).

Definition liveness_drift (s1 s2 : state) : Prop :=
  client_cache s2 = client_cache s1
  ∧ credentials <$> objects s2 = credentials <$> objects s1
  ∧ temp_files s2 = temp_files s1
  ∧ trace s2 = trace s1.

(** Well-formed caches: every entry refers to a constructed client, and no
    client sits under two keys. *)
Definition cache_ok (s : state) : Prop :=
  (∀ k c, client_cache s !! k = Some c → (c < length (objects s))%nat)
  ∧ (∀ k1 k2 c, client_cache s !! k1 = Some c →
                client_cache s !! k2 = Some c → k1 = k2).

(** A computation that leaves well-formed caches well-formed. *)
Definition keeps {A} (m : M A) : Prop :=
  ∀ s, cache_ok s → cache_ok (m s).2.

(** The states the server can be in: it starts with an empty cache, serves
    requests one after the other, and meanwhile sessions may die. *)
Inductive reachable (W : World) : state → Prop :=
| reach_initial : reachable W initial_state
| reach_handle s call r :
    reachable W s → reachable W (handle W call r s).2
| reach_drift s s' :
    reachable W s → liveness_drift s s' → reachable W s'.

(** An entry stored with a true liveness flag. *)
Definition live_entry (s : state) (client : nat) : Prop :=
  (∃ k, client_cache s !! k = Some client) ∧ is_running s client = true.

(** How often [close] was invoked on a client. *)
Definition is_close_of (client : nat) (e : event) : bool :=
  match e with
  | EClose c => (c =? client)%nat
  | _ => false
  end.

Definition closes (client : nat) (tr : list event) : nat :=
  length (filter (fun e => is_close_of client e = true) tr).

(** The route is the download proxy. *)
Definition is_download (call : api_call) : bool :=
  match call with
  | GetDownloadImage _ => true
  | _ => false
  end.

(** The detail of the 401 raised when the initialisation fails with [e]. *)
Definition init_failure_detail (W : World) (e : exn) : string :=
  "Failed to initialize Gemini client with provided cookies: " ++ str_exn W e.

(** The detail of the 400 each route raises for a missing primary cookie. *)
Definition missing_detail (call : api_call) : string :=
  match call with
  | PostTestImageGen | GetDownloadImage _ => missing_cookie_short
  | _ => missing_cookie_detail
  end.

(** The state after the events [evs] were logged. *)
Definition log_all (evs : list event) (s : state) : state :=
  {| client_cache := client_cache s; objects := objects s;
     temp_files := temp_files s; trace := trace s ++ evs |}.

(** The upstream calls of the first [n] templates. *)
Definition template_calls (client : nat) (m : Model) (prompts : list string)
    (n : nat) : list event :=
  (fun p => EGenerate client p [] m) <$> take n prompts.

(** *** The template loop of /generate-image, attempt by attempt *)

(** The trace at the moment attempt number [i] is made. *)
Definition attempt_trace (s : state) (client : nat) (m : Model)
    (prompts : list string) (i : nat) : list event :=
  trace s ++ template_calls client m prompts i.

(** What the upstream answers to attempt number [i]. *)
Definition attempt (W : World) (s : state) (client : nat) (m : Model)
    (prompts : list string) (i : nat) : outcome ModelOutput :=
  w_generate W (attempt_trace s client m prompts i) client
    (default "" (prompts !! i)) [] m.

(** The answer carries at least one image with a non-empty URL. *)
Definition yields_image (o : outcome ModelOutput) : bool :=
  match o with
  | Return response => existsb (fun img => PyStr.truthy (url img)) (images response)
  | Raise _ => false
  end.

(** The reason recorded for an attempt that gave no image. *)
Definition recorded_reason (W : World) (p : string) (o : outcome ModelOutput)
    : string :=
  match o with
  | Return _ => "No images generated with prompt: " ++ p
  | Raise e => str_exn W e
  end.

(** *** Concrete worlds, used to run the handlers *)

Definition sample_output : ModelOutput :=
  {| text := "done"; thoughts := None; images := [];
     metadata := ["c1"; "r1"]; rcid := "rc1" |}.

(** Upstream accepts every cookie except ["bad"]; the file system works. *)
Definition quiet_world : World :=
  {| w_init := fun _ _ psid _ =>
       if String.eqb psid "bad" then Raise (Exception "rejected")
       else Return ();
     w_generate := fun _ _ _ _ _ => Return sample_output;
     w_send_message := fun _ _ _ _ _ => Return sample_output;
     w_close := fun _ _ => Return ();
     w_mktemp := fun _ suffix => Return ("/tmp/upload" ++ suffix);
     w_unlink := fun _ _ => Return ();
     w_suffix := fun _ => ".png";
     w_tempdir := fun _ => "/tmp/dir";
     w_save := fun _ _ _ dir => Return (Some (dir ++ "/temp_image.png"));
     w_exists := fun _ => true;
     w_read_file := fun _ => Return "PNG";
     w_http_str := fun _ detail => detail |}.

(** As [quiet_world], but [os.unlink] fails. *)
Definition sticky_world : World :=
  {| w_init := w_init quiet_world;
     w_generate := w_generate quiet_world;
     w_send_message := w_send_message quiet_world;
     w_close := w_close quiet_world;
     w_mktemp := w_mktemp quiet_world;
     w_unlink := fun _ _ => Raise (Exception "Permission denied");
     w_suffix := w_suffix quiet_world;
     w_tempdir := w_tempdir quiet_world;
     w_save := w_save quiet_world;
     w_exists := w_exists quiet_world;
     w_read_file := w_read_file quiet_world;
     w_http_str := w_http_str quiet_world |}.

Definition sample_image : Image :=
  {| url := "https://lh3.googleusercontent.com/image_generation_content/0";
     title := "[Generated Image]"; alt := ""; has_proxy := false |}.

(** As [quiet_world], but upstream draws for the fourth phrasing only and
    raises on the second. *)
Definition fourth_world : World :=
  {| w_init := w_init quiet_world;
     w_generate := fun _ _ p _ _ =>
       if PyStr.startswith p "Make an image: " then
         Return {| text := "here"; thoughts := None;
                   images := [sample_image];
                   metadata := ["c1"; "r1"]; rcid := "rc1" |}
       else if PyStr.startswith p "Generate a picture" then
         Raise (Exception "upstream timeout")
       else Return sample_output;
     w_send_message := w_send_message quiet_world;
     w_close := w_close quiet_world;
     w_mktemp := w_mktemp quiet_world;
     w_unlink := w_unlink quiet_world;
     w_suffix := w_suffix quiet_world;
     w_tempdir := w_tempdir quiet_world;
     w_save := w_save quiet_world;
     w_exists := w_exists quiet_world;
     w_read_file := w_read_file quiet_world;
     w_http_str := w_http_str quiet_world |}.

(** As [sticky_world], and upstream generation fails as well. *)
Definition broken_sticky_world : World :=
  {| w_init := w_init quiet_world;
     w_generate := fun _ _ _ _ _ => Raise (Exception "upstream unavailable");
     w_send_message := w_send_message quiet_world;
     w_close := w_close quiet_world;
     w_mktemp := w_mktemp quiet_world;
     w_unlink := fun _ _ => Raise (Exception "Permission denied");
     w_suffix := w_suffix quiet_world;
     w_tempdir := w_tempdir quiet_world;
     w_save := w_save quiet_world;
     w_exists := w_exists quiet_world;
     w_read_file := w_read_file quiet_world;
     w_http_str := w_http_str quiet_world |}.

(** As [quiet_world], but upstream raises on the second phrasing and never
    draws. *)
Definition raising_second_world : World :=
  {| w_init := w_init quiet_world;
     w_generate := fun _ _ p _ _ =>
       if PyStr.startswith p "Generate a picture" then
         Raise (Exception "upstream timeout")
       else Return sample_output;
     w_send_message := w_send_message quiet_world;
     w_close := w_close quiet_world;
     w_mktemp := w_mktemp quiet_world;
     w_unlink := w_unlink quiet_world;
     w_suffix := w_suffix quiet_world;
     w_tempdir := w_tempdir quiet_world;
     w_save := w_save quiet_world;
     w_exists := w_exists quiet_world;
     w_read_file := w_read_file quiet_world;
     w_http_str := w_http_str quiet_world |}.

(** As [quiet_world], but upstream [close] fails. *)
Definition unclosable_world : World :=
  {| w_init := w_init quiet_world;
     w_generate := w_generate quiet_world;
     w_send_message := w_send_message quiet_world;
     w_close := fun _ _ => Raise (Exception "connection lost");
     w_mktemp := w_mktemp quiet_world;
     w_unlink := w_unlink quiet_world;
     w_suffix := w_suffix quiet_world;
     w_tempdir := w_tempdir quiet_world;
     w_save := w_save quiet_world;
     w_exists := w_exists quiet_world;
     w_read_file := w_read_file quiet_world;
     w_http_str := w_http_str quiet_world |}.

Definition sample_upload : UploadFile :=
  {| filename := "photo.png"; read := Return "PNG" |}.

(** A chat request whose [chat_id] is present but empty. *)
Definition empty_chat_id_request : ChatRequest :=
  {| prompt := "hi"; model := "gemini-2.5-flash"; chat_id := Some "";
     reply_id := Some "r1"; reply_candidate_id := None |}.

Definition cookies (h : string) : Request := {| cookie_header := Some h |}.

(** The state after one request with cookie ["ok"] was served. *)
Definition served_session : state :=
  (handle quiet_world PostTestImageGen (cookies "__Secure-1PSID=ok")
     initial_state).2.

(** The state after a second request, with cookie ["ok2"], was served:
    two live sessions are cached. *)
Definition two_sessions : state :=
  (handle quiet_world PostTestImageGen (cookies "__Secure-1PSID=ok2")
     served_session).2.

(** The state once the session of cookie ["ok"] is cached. *)
Definition ok_session : state :=
  {| client_cache := {[ cache_key "ok" None := 0%nat ]};
     objects := [{| secure_1psid := "ok"; secure_1psidts := None;
                    _running := true |}];
     temp_files := []; trace := [EInit 0] |}.

Definition no_cookies : Request := {| cookie_header := None |}.

(** ** The static routes *)

(** GET /models: the advertised model names with their descriptions. *)
Definition list_models : list (string * string) :=
  [ ("gemini-3.0-pro", "Gemini 3.0 Pro");
    ("gemini-2.5-pro", "Gemini 2.5 Pro");
    ("gemini-2.5-flash", "Gemini 2.5 Flash (Default)");
    ("unspecified", "Unspecified model") ].

(** The default of the [model] field of the request bodies. *)
Definition default_model_name : string := "gemini-2.5-flash".

(** ** Further notions *)

(** The character occurs in the string. *)
Fixpoint has_char (c : ascii) (s : string) : bool :=
  match s with
  | EmptyString => false
  | String a r => Ascii.eqb a c || has_char c r
  end.

(** The header a client sends for the two cookies, as in the curl examples
    of the handlers' docstrings. *)
Definition cookie_pair_header (p t : string) : string :=
  "__Secure-1PSID=" ++ p ++ "; __Secure-1PSIDTS=" ++ t.

(** The cache key a request is served under. *)
Definition request_key (r : Request) : string :=
  cache_key (default "" (extract_cookies_from_request r).1)
            (extract_cookies_from_request r).2.

(** A computation whose every run takes a state to an [R]-related one. *)
Definition within {A} (R : relation state) (m : M A) : Prop :=
  ∀ s, R s (m s).2.

(** Nothing of the cache but the entry of key [k] has changed, and the
    client objects that existed are as they were. *)
Definition isolated (k : string) (s s' : state) : Prop :=
  (∀ k', k' ≠ k → client_cache s' !! k' = client_cache s !! k')
  ∧ objects s `prefix_of` objects s'.

Definition is_close (e : event) : bool :=
  match e with EClose _ => true | _ => false end.

Definition is_init (e : event) : bool :=
  match e with EInit _ => true | _ => false end.

(** The trace has only grown, by events that satisfy [ok]. *)
Definition grown_by (ok : event → bool) (s s' : state) : Prop :=
  ∃ evs, trace s' = (trace s ++ evs)%list ∧ forallb ok evs = true.

(** A step that leaves the cache and the client objects alone and talks to
    the outside without initialising or closing a session. *)
Definition session_event (e : event) : bool := is_init e || is_close e.

Definition quiet_step (s s' : state) : Prop :=
  client_cache s' = client_cache s
  ∧ objects s' = objects s
  ∧ grown_by (fun e => negb (session_event e)) s s'.

(** The relation of a step that does not break the invariant [I]. *)
Definition keeping (I : state → Prop) : relation state :=
  fun s s' => I s → I s'.

(** Every cached client was constructed from cookies that give its key. *)
Definition keyed (s : state) : Prop :=
  ∀ k c, client_cache s !! k = Some c →
         ∃ o, objects s !! c = Some o
              ∧ cache_key (secure_1psid o) (secure_1psidts o) = k.

(** How often [init] was invoked on a client. *)
Definition is_init_of (client : nat) (e : event) : bool :=
  match e with
  | EInit c => (c =? client)%nat
  | _ => false
  end.

Definition inits (client : nat) (tr : list event) : nat :=
  length (filter (fun e => is_init_of client e = true) tr).

(** Every constructed client was initialised once, and nothing else was. *)
Definition initialised_once (s : state) : Prop :=
  ∀ client, inits client (trace s)
            = if decide (client < length (objects s))%nat then 1%nat else 0%nat.

(** The statuses a route can answer with. *)
Definition statuses (call : api_call) : list nat :=
  match call with
  | GetDownloadImage _ => [200; 400; 500]
  | PostTestImageGen => [200; 400; 401]
  | _ => [200; 400; 401; 500]
  end%nat.

(** A computation that raises nothing but an [HTTPException] with one of
    the given status codes. *)
Definition raises_in {A} (codes : list nat) (m : M A) : Prop :=
  ∀ s e, (m s).1 = Raise e →
         ∃ code detail, e = HTTPException code detail ∧ code ∈ codes.

(** The chat request that continues the conversation of a chat response. *)
Definition follow_up (p m : string) (answer : ChatResponse) : ChatRequest :=
  {| prompt := p; model := m;
     chat_id := Some (c_chat_id answer);
     reply_id := Some (c_reply_id answer);
     reply_candidate_id := Some (c_reply_candidate_id answer) |}.

(** * Properties *)

(** ** Strings and cookies *)

Lemma append_cancel_l (p a b : string) : p ++ a = p ++ b → a = b.
Proof.
  induction p as [|c p IH]; simpl; intros H.
  - exact H.
  - injection H as H. auto.
Qed.

Lemma or_empty_truthy (t : string) : t ≠ "" → PyStr.or_empty (Some t) = t.
Proof. destruct t; [congruence | reflexivity]. Qed.

Lemma otruthy_false (o : option string) :
  PyStr.otruthy o = false ↔ o = None ∨ o = Some "".
Proof.
  destruct o as [[|c t]|]; simpl; split; intros H; auto;
    try discriminate; destruct H; discriminate.
Qed.

Lemma otruthy_true (o : option string) :
  PyStr.otruthy o = true ↔ ∃ t, o = Some t ∧ t ≠ "".
Proof.
  destruct o as [[|c t]|]; simpl; split; intros H; try discriminate.
  - destruct H as (t & [= <-] & Hne). congruence.
  - eexists. split; [reflexivity | discriminate].
  - reflexivity.
  - destruct H as (t & [=] & _).
Qed.

(** A later segment that is not the primary cookie leaves the primary token
    alone. *)
Lemma extract_step_keeps_primary acc seg :
  PyStr.startswith (PyStr.strip seg) "__Secure-1PSID=" = false →
  (extract_step acc seg).1 = acc.1.
Proof.
  intros H. unfold extract_step. rewrite H.
  destruct (PyStr.startswith _ "__Secure-1PSIDTS="); reflexivity.
Qed.

Lemma extract_fold_keeps_primary segs acc :
  Forall (fun c => PyStr.startswith (PyStr.strip c) "__Secure-1PSID=" = false)
         segs →
  (fold_left extract_step segs acc).1 = acc.1.
Proof.
  intros H. revert acc. induction H as [|seg segs Hseg _ IH]; intros acc.
  - reflexivity.
  - simpl. rewrite IH. by apply extract_step_keeps_primary.
Qed.

(** The value cut out of a primary-cookie segment is what follows the name:
    index 1 of [split("=", 1)] always exists there. *)
Lemma cookie_value_primary (v : string) :
  cookie_value ("__Secure-1PSID=" ++ v) = v.
Proof. reflexivity. Qed.

Lemma cookie_value_secondary (v : string) :
  cookie_value ("__Secure-1PSIDTS=" ++ v) = v.
Proof. reflexivity. Qed.

Lemma startswith_primary (v : string) :
  PyStr.startswith ("__Secure-1PSID=" ++ v) "__Secure-1PSID=" = true.
Proof. destruct v; reflexivity. Qed.

(** The last primary-cookie segment decides the primary token. *)
Lemma extract_last_primary (l1 l2 : list string) (seg v : string) acc :
  PyStr.strip seg = "__Secure-1PSID=" ++ v →
  Forall (fun c => PyStr.startswith (PyStr.strip c) "__Secure-1PSID=" = false)
         l2 →
  (fold_left extract_step (l1 ++ seg :: l2) acc).1 = Some v.
Proof.
  intros Hseg Hl2. rewrite fold_left_app. simpl.
  rewrite extract_fold_keeps_primary by assumption.
  unfold extract_step. rewrite Hseg, startswith_primary.
  simpl. by rewrite cookie_value_primary.
Qed.

(** ** The cache key *)

(** C2 fails as stated: a request that supplies an empty secondary cookie
    and one that supplies none carry the same primary token, differ in the
    presence of the secondary token, and get the same cache key. *)
Lemma cache_key_empty_secondary_collides :
  extract_cookies_from_request (cookies "__Secure-1PSID=a; __Secure-1PSIDTS=")
    = (Some "a", Some "")
  ∧ extract_cookies_from_request (cookies "__Secure-1PSID=a") = (Some "a", None)
  ∧ cache_key "a" (Some "") = cache_key "a" None.
Proof. repeat split; reflexivity. Qed.

(** C2 (amended): the cache key is a function of the identity pair, so equal
    pairs give equal keys; with the same primary token, a request with a
    non-empty secondary token and one without get distinct keys; an empty
    secondary token gives the key of an absent one. *)
Theorem cache_key_of_pair (p t : string) :
  t ≠ "" →
  (∀ pair1 pair2 : string * option string,
      pair1 = pair2 → cache_key pair1.1 pair1.2 = cache_key pair2.1 pair2.2)
  ∧ cache_key p (Some t) ≠ cache_key p None
  ∧ cache_key p (Some "") = cache_key p None.
Proof.
  intros Ht. split; [|split].
  - intros pair1 pair2 ->. reflexivity.
  - unfold cache_key. rewrite or_empty_truthy by assumption. simpl.
    intros H. apply append_cancel_l in H. injection H as H. contradiction.
  - reflexivity.
Qed.

Lemma cache_key_of_pair_witness :
  cache_key "a" (Some "ts") ≠ cache_key "a" None.
Proof.
  apply (cache_key_of_pair "a" "ts"). discriminate.
Defined.

(** ** Missing identity *)

Section Identity.

Context (W : World).

Lemma require_client_falsy r detail s :
  PyStr.otruthy (extract_cookies_from_request r).1 = false →
  require_client W r detail s = (Raise (HTTPException 400 detail), s).
Proof.
  intros H. unfold require_client.
  destruct (extract_cookies_from_request r) as [psid psidts].
  simpl in H. rewrite H. reflexivity.
Qed.

Lemma handle_falsy call r s :
  PyStr.otruthy (extract_cookies_from_request r).1 = false →
  handle W call r s = (Raise (HTTPException 400 (missing_detail call)), s).
Proof.
  intros H.
  destruct call; simpl;
    unfold generate_content, chat_with_history, generate_image,
      test_image_generation, edit_image, generate_with_files, bind;
    try (rewrite require_client_falsy by assumption; reflexivity).
  unfold download_image.
  destruct (extract_cookies_from_request r) as [psid psidts].
  simpl in H. rewrite H. reflexivity.
Qed.

(** C4: when the cookie header yields no primary token, every handler
    answers 400 and leaves the whole state as it was: the cache is neither
    read nor written, no client is constructed, nothing is sent upstream. *)
Theorem missing_primary_token_400 call r s :
  (extract_cookies_from_request r).1 = None →
  handle W call r s = (Raise (HTTPException 400 (missing_detail call)), s)
  ∧ status_of (handle W call r s).1 = 400%nat
  ∧ (handle W call r s).2 = s.
Proof.
  intros H.
  assert (Hd := handle_falsy call r s). rewrite H in Hd.
  rewrite Hd by reflexivity. auto.
Qed.

(** C9: a header whose (last) primary-cookie segment is [__Secure-1PSID=],
    with nothing after the [=], gives the empty string as primary token, and
    every handler then does exactly what it does without any cookie: 400,
    state untouched. *)
Theorem empty_primary_token_is_missing call r s l1 seg l2 :
  PyStr.split ";" (default "" (cookie_header r)) = (l1 ++ seg :: l2)%list →
  PyStr.strip seg = "__Secure-1PSID=" →
  Forall (fun c => PyStr.startswith (PyStr.strip c) "__Secure-1PSID=" = false)
         l2 →
  (extract_cookies_from_request r).1 = Some ""
  ∧ handle W call r s = handle W call no_cookies s
  ∧ status_of (handle W call r s).1 = 400%nat
  ∧ (handle W call r s).2 = s.
Proof.
  intros Hsplit Hseg Hl2.
  assert (Hp : (extract_cookies_from_request r).1 = Some "").
  { unfold extract_cookies_from_request. rewrite Hsplit.
    by apply extract_last_primary. }
  split; [exact Hp|].
  rewrite !handle_falsy; [auto | reflexivity | by rewrite Hp].
Qed.

End Identity.

Lemma empty_primary_token_is_missing_witness :
  handle quiet_world (PostGenerate {| gr_prompt := "hi"; gr_model := "m" |})
    (cookies "foo=1; __Secure-1PSID= ;__Secure-1PSIDTS=x") initial_state
  = (Raise (HTTPException 400 missing_cookie_detail), initial_state).
Proof.
  destruct (empty_primary_token_is_missing quiet_world
              (PostGenerate {| gr_prompt := "hi"; gr_model := "m" |})
              (cookies "foo=1; __Secure-1PSID= ;__Secure-1PSIDTS=x")
              initial_state ["foo=1"] " __Secure-1PSID= " ["__Secure-1PSIDTS=x"])
    as (_ & -> & _); [reflexivity | reflexivity | | reflexivity].
  repeat constructor.
Defined.

Lemma missing_primary_token_400_witness :
  handle quiet_world (GetDownloadImage "https://example.com/i.png")
    (cookies "theme=dark; __Secure-1PSIDTS=x") initial_state
  = (Raise (HTTPException 400 missing_cookie_short), initial_state).
Proof.
  apply (missing_primary_token_400 quiet_world
           (GetDownloadImage "https://example.com/i.png")
           (cookies "theme=dark; __Secure-1PSIDTS=x") initial_state).
  reflexivity.
Defined.

(** ** Chat continuation *)

Lemma chat_metadata_list_present (request : ChatRequest) :
  chat_metadata_list request
  = filter (fun t => PyStr.truthy t = true) (present_fields request).
Proof.
  destruct request as [p m [[|a1 t1]|] [[|a2 t2]|] [[|a3 t3]|]]; reflexivity.
Qed.

Lemma chat_metadata_list_normalise (request : ChatRequest) :
  chat_metadata_list (normalise_chat request) = chat_metadata_list request.
Proof.
  destruct request as [p m [[|a1 t1]|] [[|a2 t2]|] [[|a3 t3]|]]; reflexivity.
Qed.

Lemma start_chat_metadata_blank (request : ChatRequest) :
  PyStr.otruthy (chat_id request) = false →
  PyStr.otruthy (reply_id request) = false →
  PyStr.otruthy (reply_candidate_id request) = false →
  start_chat_metadata request = None.
Proof.
  unfold start_chat_metadata, chat_metadata_list.
  intros -> -> ->. reflexivity.
Qed.

Section Chat.

Context (W : World).

(** What /chat sends upstream once the client is there: one [start_chat]
    with the metadata built from the request, then one [send_message]. *)
Lemma chat_with_history_upstream request r s :
  match require_client W r missing_cookie_detail s with
  | (Return client, s1) =>
      trace (chat_with_history W request r s).2
      = (trace s1 ++ [EStartChat client (start_chat_metadata request)
                        (model_mapping_get (model request));
                      ESendMessage client (prompt request)])%list
  | (Raise e, s1) => chat_with_history W request r s = (Raise e, s1)
  end.
Proof.
  unfold chat_with_history, bind.
  destruct (require_client W r missing_cookie_detail s) as [[client|e] s1];
    [|reflexivity].
  unfold try_except, client_chat, bind.
  destruct (w_send_message W _ client _ _ _); simpl;
    by rewrite <- app_assoc.
Qed.

(** C10: an empty-string [chat_id], [reply_id] or [reply_candidate_id] is
    handled exactly as an absent one: the handler does the same with the
    request as with the request in which empty fields are dropped, empty
    fields never reach the metadata list, and when nothing non-empty is
    supplied [start_chat] gets [None]. *)
Theorem chat_empty_field_is_absent request r s :
  PyStr.otruthy (chat_id request) = false →
  PyStr.otruthy (reply_id request) = false →
  PyStr.otruthy (reply_candidate_id request) = false →
  chat_with_history W request r s
  = chat_with_history W (normalise_chat request) r s
  ∧ (∀ request' : ChatRequest,
        chat_with_history W request' r s
        = chat_with_history W (normalise_chat request') r s
        ∧ chat_metadata_list request'
          = filter (fun t => PyStr.truthy t = true) (present_fields request'))
  ∧ start_chat_metadata request = None
  ∧ match require_client W r missing_cookie_detail s with
    | (Return client, s1) =>
        trace (chat_with_history W request r s).2
        = (trace s1 ++ [EStartChat client None
                          (model_mapping_get (model request));
                        ESendMessage client (prompt request)])%list
    | (Raise e, s1) => chat_with_history W request r s = (Raise e, s1)
    end.
Proof.
  intros H1 H2 H3.
  assert (Hn : ∀ q, chat_with_history W q r s
                    = chat_with_history W (normalise_chat q) r s).
  { intros q. unfold chat_with_history, start_chat_metadata.
    rewrite chat_metadata_list_normalise. reflexivity. }
  split; [apply Hn|]. split.
  { intros q. split; [apply Hn | apply chat_metadata_list_present]. }
  split; [by apply start_chat_metadata_blank|].
  rewrite <- (start_chat_metadata_blank request H1 H2 H3).
  apply chat_with_history_upstream.
Qed.

(** C6 (amended): the metadata handed to [start_chat] is the list of those
    of [chat_id], [reply_id], [reply_candidate_id] that are present and not
    empty, in that order, with nothing put in for the others; when that list
    is empty [start_chat] gets [None]; a request with only [chat_id = "c1"]
    gives [["c1"]]. *)
Theorem chat_metadata_present_nonempty request r s :
  chat_metadata_list request
  = filter (fun t => PyStr.truthy t = true) (present_fields request)
  ∧ start_chat_metadata request
    = match chat_metadata_list request with [] => None | md => Some md end
  ∧ start_chat_metadata
      {| prompt := prompt request; model := model request;
         chat_id := Some "c1"; reply_id := None; reply_candidate_id := None |}
    = Some ["c1"]
  ∧ match require_client W r missing_cookie_detail s with
    | (Return client, s1) =>
        trace (chat_with_history W request r s).2
        = (trace s1 ++ [EStartChat client (start_chat_metadata request)
                          (model_mapping_get (model request));
                        ESendMessage client (prompt request)])%list
    | (Raise e, s1) => chat_with_history W request r s = (Raise e, s1)
    end.
Proof.
  split; [apply chat_metadata_list_present|].
  split; [reflexivity|]. split; [reflexivity|].
  apply chat_with_history_upstream.
Qed.

End Chat.

(** C6 fails as stated: with [chat_id] present but empty and [reply_id]
    ["r1"], the present fields are [[""; "r1"]], yet [start_chat] is called
    with [["r1"]]. *)
Lemma chat_present_empty_field_dropped :
  present_fields empty_chat_id_request = [""; "r1"]
  ∧ trace (chat_with_history quiet_world empty_chat_id_request
             (cookies "__Secure-1PSID=ok") initial_state).2
    = [EInit 0; EStartChat 0 (Some ["r1"]) G_2_5_FLASH; ESendMessage 0 "hi"]
  ∧ start_chat_metadata empty_chat_id_request
    ≠ Some (present_fields empty_chat_id_request).
Proof. repeat split. discriminate. Qed.

Lemma chat_empty_field_is_absent_witness :
  start_chat_metadata
    {| prompt := "hi"; model := "gemini-2.5-flash"; chat_id := Some "";
       reply_id := None; reply_candidate_id := Some "" |} = None.
Proof.
  apply (chat_empty_field_is_absent quiet_world
           {| prompt := "hi"; model := "gemini-2.5-flash"; chat_id := Some "";
              reply_id := None; reply_candidate_id := Some "" |}
           (cookies "__Secure-1PSID=ok") initial_state); reflexivity.
Defined.

(** ** The session cache *)

Lemma is_running_lt s client :
  is_running s client = true → (client < length (objects s))%nat.
Proof.
  unfold is_running. destruct (objects s !! client) eqn:E; [|discriminate].
  intros _. apply lookup_lt_is_Some. by eexists.
Qed.

(** Projections of the updated state. *)

Lemma client_cache_set_client_cache c s : client_cache (set_client_cache c s) = c.
Proof. reflexivity. Qed.

Lemma objects_set_client_cache c s : objects (set_client_cache c s) = objects s.
Proof. reflexivity. Qed.

Lemma temp_files_set_client_cache c s : temp_files (set_client_cache c s) = temp_files s.
Proof. reflexivity. Qed.

Lemma trace_set_client_cache c s : trace (set_client_cache c s) = trace s.
Proof. reflexivity. Qed.

Lemma client_cache_set_objects o s : client_cache (set_objects o s) = client_cache s.
Proof. reflexivity. Qed.

Lemma objects_set_objects o s : objects (set_objects o s) = o.
Proof. reflexivity. Qed.

Lemma temp_files_set_objects o s : temp_files (set_objects o s) = temp_files s.
Proof. reflexivity. Qed.

Lemma trace_set_objects o s : trace (set_objects o s) = trace s.
Proof. reflexivity. Qed.

Lemma client_cache_set_temp_files f s : client_cache (set_temp_files f s) = client_cache s.
Proof. reflexivity. Qed.

Lemma objects_set_temp_files f s : objects (set_temp_files f s) = objects s.
Proof. reflexivity. Qed.

Lemma temp_files_set_temp_files f s : temp_files (set_temp_files f s) = f.
Proof. reflexivity. Qed.

Lemma trace_set_temp_files f s : trace (set_temp_files f s) = trace s.
Proof. reflexivity. Qed.

Lemma client_cache_log e s : client_cache (log e s) = client_cache s.
Proof. reflexivity. Qed.

Lemma objects_log e s : objects (log e s) = objects s.
Proof. reflexivity. Qed.

Lemma temp_files_log e s : temp_files (log e s) = temp_files s.
Proof. reflexivity. Qed.

Lemma trace_log e s : trace (log e s) = (trace s ++ [e])%list.
Proof. reflexivity. Qed.

Lemma is_running_set_client_cache c s client :
  is_running (set_client_cache c s) client = is_running s client.
Proof. reflexivity. Qed.

Lemma is_running_set_temp_files f s client :
  is_running (set_temp_files f s) client = is_running s client.
Proof. reflexivity. Qed.

Lemma is_running_log e s client :
  is_running (log e s) client = is_running s client.
Proof. reflexivity. Qed.

Lemma set_running_cache client b s :
  client_cache (set_running client b s) = client_cache s.
Proof. unfold set_running. by destruct (objects s !! client). Qed.

Lemma set_running_trace client b s :
  trace (set_running client b s) = trace s.
Proof. unfold set_running. by destruct (objects s !! client). Qed.

Lemma set_running_temp_files client b s :
  temp_files (set_running client b s) = temp_files s.
Proof. unfold set_running. by destruct (objects s !! client). Qed.

Lemma set_running_length client b s :
  length (objects (set_running client b s)) = length (objects s).
Proof.
  unfold set_running. destruct (objects s !! client); [|reflexivity].
  simpl. apply length_insert.
Qed.

Lemma set_running_credentials client b s :
  credentials <$> objects (set_running client b s) = credentials <$> objects s.
Proof.
  unfold set_running. destruct (objects s !! client) as [o|] eqn:E;
    [|reflexivity].
  simpl. rewrite list_fmap_insert. apply list_insert_id.
  rewrite list_lookup_fmap, E. reflexivity.
Qed.

Create Rewrite HintDb state.
#[global] Hint Rewrite client_cache_set_client_cache objects_set_client_cache temp_files_set_client_cache trace_set_client_cache client_cache_set_objects objects_set_objects temp_files_set_objects trace_set_objects client_cache_set_temp_files objects_set_temp_files temp_files_set_temp_files trace_set_temp_files client_cache_log objects_log temp_files_log trace_log is_running_set_client_cache is_running_set_temp_files is_running_log
  set_running_cache set_running_trace set_running_temp_files
  set_running_length set_running_credentials : state.

Lemma is_running_set_running_eq client b s :
  (client < length (objects s))%nat →
  is_running (set_running client b s) client = b.
Proof.
  intros Hlt. unfold set_running, is_running.
  destruct (objects s !! client) as [o|] eqn:E.
  - simpl. by rewrite list_lookup_insert_eq.
  - apply lookup_ge_None in E. lia.
Qed.

Lemma is_running_set_running_ne client client' b s :
  client ≠ client' →
  is_running (set_running client b s) client' = is_running s client'.
Proof.
  intros Hne. unfold set_running, is_running.
  destruct (objects s !! client) as [o|] eqn:E; [|reflexivity].
  simpl. by rewrite list_lookup_insert_ne.
Qed.

Section Cache.

Context (W : World).

(** A live cached client is handed back and nothing else happens. *)
Lemma get_client_cached psid psidts s client :
  client_cache s !! cache_key psid psidts = Some client →
  is_running s client = true →
  get_client_for_cookies W psid psidts s = (Return client, s).
Proof.
  intros Hc Hr. unfold get_client_for_cookies. by rewrite Hc, Hr.
Qed.

(** Without a live cached client, a new client is constructed and
    initialised once; it is stored only when the initialisation succeeds. *)
Lemma get_client_created psid psidts s :
  (∀ client, client_cache s !! cache_key psid psidts = Some client →
             is_running s client = false) →
  ∃ s3,
    get_client_for_cookies W psid psidts s
    = (match w_init W (trace s) (length (objects s)) psid psidts with
       | Return _ => Return (length (objects s))
       | Raise e => Raise (HTTPException 401 (init_failure_detail W e))
       end, s3)
    ∧ client_cache s3
      = match w_init W (trace s) (length (objects s)) psid psidts with
        | Return _ => <[cache_key psid psidts := length (objects s)]>
                        (client_cache s)
        | Raise _ => delete (cache_key psid psidts) (client_cache s)
        end
    ∧ is_running s3 (length (objects s))
      = match w_init W (trace s) (length (objects s)) psid psidts with
        | Return _ => true
        | Raise _ => false
        end
    ∧ length (objects s3) = S (length (objects s))
    ∧ (∀ client, client ≠ length (objects s) →
                 is_running s3 client = is_running s client)
    ∧ trace s3 = (trace s ++ [EInit (length (objects s))])%list
    ∧ temp_files s3 = temp_files s.
Proof.
  intros Hdead.
  set (key := cache_key psid psidts).
  set (fresh := {| secure_1psid := psid; secure_1psidts := psidts;
                   _running := false |}).
  assert (Hgen : ∀ cache' : gmap string nat,
    <[key := length (objects s)]> cache'
      = <[key := length (objects s)]> (client_cache s) →
    cache' = delete key (client_cache s) →
    ∃ s3,
      (let* client := new_client psid psidts in
       try_except
         (let* _ := client_init W client psid psidts in
          let* _ := (fun s0 => (Return (),
                       set_client_cache (<[key := client]> (client_cache s0)) s0)) in
          ret client)
         (fun e => raise (HTTPException 401 (init_failure_detail W e))))
        (set_client_cache cache' s)
      = (match w_init W (trace s) (length (objects s)) psid psidts with
         | Return _ => Return (length (objects s))
         | Raise e => Raise (HTTPException 401 (init_failure_detail W e))
         end, s3)
      ∧ client_cache s3
        = match w_init W (trace s) (length (objects s)) psid psidts with
          | Return _ => <[key := length (objects s)]> (client_cache s)
          | Raise _ => delete key (client_cache s)
          end
      ∧ is_running s3 (length (objects s))
        = match w_init W (trace s) (length (objects s)) psid psidts with
          | Return _ => true
          | Raise _ => false
          end
      ∧ length (objects s3) = S (length (objects s))
      ∧ (∀ client, client ≠ length (objects s) →
                   is_running s3 client = is_running s client)
      ∧ trace s3 = (trace s ++ [EInit (length (objects s))])%list
      ∧ temp_files s3 = temp_files s).
  { intros cache' Hins Hdel.
    assert (Hold : ∀ (client : nat) (l : list GeminiClient),
               client ≠ length (objects s) → length l = 1%nat →
               (objects s ++ l)%list !! client = objects s !! client).
    { intros client l Hne Hl.
      destruct (decide (client < length (objects s))%nat) as [Hlt|Hge].
      - by rewrite lookup_app_l.
      - rewrite !lookup_ge_None_2; [done | lia |]. rewrite length_app. lia. }
    unfold bind, new_client, try_except, client_init, ret, raise.
    autorewrite with state.
    destruct (w_init W (trace s) (length (objects s)) psid psidts) as [[]|e].
    - eexists. split; [reflexivity|].
      autorewrite with state.
      split; [exact Hins|].
      split.
      { apply is_running_set_running_eq. autorewrite with state.
        rewrite length_app. simpl. lia. }
      split; [rewrite length_app; simpl; lia|].
      split; [|done].
      intros client Hne. autorewrite with state.
      rewrite is_running_set_running_ne by done.
      unfold is_running. autorewrite with state. by rewrite Hold.
    - eexists. split; [reflexivity|].
      autorewrite with state.
      split; [exact Hdel|].
      split.
      { unfold is_running. autorewrite with state.
        by rewrite list_lookup_middle. }
      split; [rewrite length_app; simpl; lia|].
      split; [|done].
      intros client Hne.
      unfold is_running. autorewrite with state. by rewrite Hold. }
  unfold get_client_for_cookies. fold key.
  destruct (client_cache s !! key) as [client|] eqn:Hc.
  - rewrite (Hdead client Hc).
    apply Hgen; [apply insert_delete_eq | reflexivity].
  - destruct (Hgen (client_cache s)) as (s3 & Hs3); [done | |].
    { symmetry. by apply delete_id. }
    exists s3. revert Hs3.
    replace (set_client_cache (client_cache s) s) with s by (by destruct s).
    done.
Qed.

End Cache.

Section Acquire.

Context (W : World).

Lemma cached_live_or_not psid psidts s :
  (∃ client, client_cache s !! cache_key psid psidts = Some client
             ∧ is_running s client = true)
  ∨ (∀ client, client_cache s !! cache_key psid psidts = Some client →
               is_running s client = false).
Proof.
  destruct (client_cache s !! cache_key psid psidts) as [c|]; [|by right].
  destruct (is_running s c) eqn:Hr.
  - left. by exists c.
  - right. by intros c' [= <-].
Qed.

(** The client handed back is the one stored under the key, and it runs. *)
Lemma get_client_returns psid psidts s client s1 :
  get_client_for_cookies W psid psidts s = (Return client, s1) →
  client_cache s1 !! cache_key psid psidts = Some client
  ∧ is_running s1 client = true.
Proof.
  intros H.
  destruct (cached_live_or_not psid psidts s) as [(c & Hc & Hr)|Hdead].
  - rewrite (get_client_cached W _ _ _ _ Hc Hr) in H.
    injection H as <- <-. done.
  - destruct (get_client_created W psid psidts s Hdead)
      as (s3 & Hrun & Hcache & Hlive & _).
    rewrite Hrun in H.
    destruct (w_init W (trace s) (length (objects s)) psid psidts);
      [|discriminate].
    injection H as <- <-. rewrite Hcache, Hlive.
    split; [apply lookup_insert_eq | done].
Qed.

(** A raising call stores nothing under the key. *)
Lemma get_client_raises psid psidts s e s1 :
  get_client_for_cookies W psid psidts s = (Raise e, s1) →
  client_cache s1 !! cache_key psid psidts = None
  ∧ ∃ e0, e = HTTPException 401 (init_failure_detail W e0).
Proof.
  intros H.
  destruct (cached_live_or_not psid psidts s) as [(c & Hc & Hr)|Hdead].
  - rewrite (get_client_cached W _ _ _ _ Hc Hr) in H. discriminate.
  - destruct (get_client_created W psid psidts s Hdead)
      as (s3 & Hrun & Hcache & _).
    rewrite Hrun in H.
    destruct (w_init W (trace s) (length (objects s)) psid psidts) as [|e0];
      [discriminate|].
    injection H as <- <-. rewrite Hcache.
    split; [apply lookup_delete_eq | by exists e0].
Qed.

(** C1: after a first successful acquire, a second acquire with the same
    pair, made when only liveness flags may have changed, hands back the
    same client and does nothing else (no second initialisation) if that
    client is still running; if it is not, and the upstream initialisation
    succeeds, the dead entry is replaced by a newly constructed client that
    was initialised exactly once, and that client is returned. *)
Theorem acquire_twice psid psidts s client s1 s2 :
  get_client_for_cookies W psid psidts s = (Return client, s1) →
  liveness_drift s1 s2 →
  (is_running s2 client = true →
   get_client_for_cookies W psid psidts s2 = (Return client, s2))
  ∧ (is_running s2 client = false →
     w_init W (trace s2) (length (objects s2)) psid psidts = Return () →
     ∃ s3,
       get_client_for_cookies W psid psidts s2
       = (Return (length (objects s2)), s3)
       ∧ length (objects s2) ≠ client
       ∧ client_cache s3 !! cache_key psid psidts = Some (length (objects s2))
       ∧ is_running s3 (length (objects s2)) = true
       ∧ is_running s3 client = false
       ∧ trace s3 = (trace s2 ++ [EInit (length (objects s2))])%list).
Proof.
  intros Hfirst (Hcache & Hcred & _ & _).
  destruct (get_client_returns _ _ _ _ _ Hfirst) as [Hstored Hlive1].
  rewrite <- Hcache in Hstored.
  assert (Hlen : (client < length (objects s2))%nat).
  { apply is_running_lt in Hlive1.
    rewrite <- (length_fmap credentials (objects s2)), Hcred, length_fmap.
    exact Hlive1. }
  split.
  - intros Hlive2. by apply get_client_cached.
  - intros Hdead Hinit.
    destruct (get_client_created W psid psidts s2)
      as (s3 & Hrun & Hc3 & Hlive3 & _ & Hothers & Htrace & _).
    { intros c Hc. rewrite Hstored in Hc. by injection Hc as <-. }
    rewrite Hinit in Hrun, Hc3, Hlive3.
    exists s3. split; [exact Hrun|].
    split; [lia|].
    split; [rewrite Hc3; apply lookup_insert_eq|].
    split; [exact Hlive3|].
    split; [|exact Htrace].
    rewrite Hothers by lia. exact Hdead.
Qed.

End Acquire.

(** From the empty cache, cookie ["ok"] gets client 0; asked again it gets
    the same client in the same state; once client 0 has died it gets the
    new client 1. *)
Lemma acquire_twice_witness :
  get_client_for_cookies quiet_world "ok" None ok_session
  = (Return 0%nat, ok_session)
  ∧ ∃ s3, get_client_for_cookies quiet_world "ok" None
            (set_running 0 false ok_session)
          = (Return 1%nat, s3).
Proof.
  split.
  - apply (acquire_twice quiet_world "ok" None initial_state 0%nat
             ok_session ok_session);
      [reflexivity | repeat split | reflexivity].
  - destruct (acquire_twice quiet_world "ok" None initial_state 0%nat
                ok_session (set_running 0 false ok_session)) as [_ H];
      [reflexivity | repeat split |].
    destruct H as (s3 & H3 & _); [reflexivity | reflexivity |].
    exists s3. exact H3.
Defined.

(** ** Rejected cookies *)

Section Rejected.

Context (W : World).

Lemma require_client_truthy r detail s psid psidts :
  extract_cookies_from_request r = (Some psid, psidts) →
  psid ≠ "" →
  require_client W r detail s = get_client_for_cookies W psid psidts s.
Proof.
  intros Hx Hne. unfold require_client. rewrite Hx.
  destruct psid; [congruence | reflexivity].
Qed.

(** How each route passes on an exception of the acquire step: the download
    proxy calls it inside its own [try] and turns it into a 500, the others
    call it before their [try] and let it through. *)
Lemma handle_acquire_raises call r s psid psidts e s1 :
  extract_cookies_from_request r = (Some psid, psidts) →
  psid ≠ "" →
  get_client_for_cookies W psid psidts s = (Raise e, s1) →
  handle W call r s
  = (Raise (if is_download call
            then HTTPException 500 ("Error downloading image: " ++ str_exn W e)
            else e), s1).
Proof.
  intros Hx Hne Hget.
  destruct call; simpl;
    unfold generate_content, chat_with_history, generate_image,
      test_image_generation, edit_image, generate_with_files, bind;
    try (rewrite (require_client_truthy _ _ _ _ _ Hx Hne), Hget;
         reflexivity).
  unfold download_image. rewrite Hx.
  destruct psid; [congruence|]. simpl.
  unfold try_except, bind. simpl in Hget. rewrite Hget. reflexivity.
Qed.

(** C3 (amended): when the cookies carry a primary token, no live session
    is cached for them and the upstream initialisation fails, the download
    proxy answers 500 and every other route answers 401; in both cases no
    entry is stored under the cache key afterwards. *)
Theorem rejected_cookies r s psid psidts e call :
  extract_cookies_from_request r = (Some psid, psidts) →
  psid ≠ "" →
  (∀ client, client_cache s !! cache_key psid psidts = Some client →
             is_running s client = false) →
  w_init W (trace s) (length (objects s)) psid psidts = Raise e →
  status_of (handle W call r s).1
  = (if is_download call then 500%nat else 401%nat)
  ∧ client_cache (handle W call r s).2 !! cache_key psid psidts = None.
Proof.
  intros Hx Hne Hdead Hinit.
  destruct (get_client_created W psid psidts s Hdead)
    as (s3 & Hrun & Hcache & _).
  rewrite Hinit in Hrun, Hcache.
  rewrite (handle_acquire_raises call r s psid psidts _ s3 Hx Hne Hrun).
  simpl. rewrite Hcache. split; [by destruct call | apply lookup_delete_eq].
Qed.

End Rejected.

(** C3 fails as stated: upstream rejects cookie ["bad"] at initialisation,
    and the download proxy answers 500, not 401. *)
Lemma download_image_rejected_cookies_500 :
  w_init quiet_world [] 0%nat "bad" None = Raise (Exception "rejected")
  ∧ handle quiet_world (GetDownloadImage "https://example.com/i.png")
      (cookies "__Secure-1PSID=bad") initial_state
    = (Raise (HTTPException 500
                "Error downloading image: Failed to initialize Gemini client with provided cookies: rejected"),
       {| client_cache := ∅;
          objects := [{| secure_1psid := "bad"; secure_1psidts := None;
                         _running := false |}];
          temp_files := []; trace := [EInit 0] |})
  ∧ status_of (handle quiet_world (GetDownloadImage "https://example.com/i.png")
                 (cookies "__Secure-1PSID=bad") initial_state).1 ≠ 401%nat.
Proof. repeat split. discriminate. Qed.

Lemma rejected_cookies_witness :
  status_of (handle quiet_world
               (PostGenerate {| gr_prompt := "hi"; gr_model := "m" |})
               (cookies "__Secure-1PSID=bad") initial_state).1 = 401%nat
  ∧ client_cache (handle quiet_world
                    (PostGenerate {| gr_prompt := "hi"; gr_model := "m" |})
                    (cookies "__Secure-1PSID=bad") initial_state).2
    !! cache_key "bad" None = None.
Proof.
  apply (rejected_cookies quiet_world (cookies "__Secure-1PSID=bad")
           initial_state "bad" None (Exception "rejected")
           (PostGenerate {| gr_prompt := "hi"; gr_model := "m" |}));
    [reflexivity | discriminate | | reflexivity].
  intros client H. discriminate H.
Defined.

(** ** Image generation by rephrasing *)

Lemma shape_generated_images_nil imgs :
  shape_generated_images imgs = []
  ↔ existsb (fun img => PyStr.truthy (url img)) imgs = false.
Proof.
  unfold shape_generated_images.
  induction imgs as [|img imgs IH]; [done|].
  simpl. rewrite filter_cons.
  destruct (decide (PyStr.truthy (url img) = true)) as [E|E].
  - rewrite E. simpl. split; discriminate.
  - apply not_true_is_false in E. rewrite E. exact IH.
Qed.

(** Every listed image has a non-empty URL and is typed by the marker. *)
Lemma shape_generated_images_typed imgs d :
  d ∈ shape_generated_images imgs →
  d_url d ≠ ""
  ∧ (∃ img, img ∈ imgs ∧ d_url d = url img ∧ d_title d = title img
            ∧ d_alt d = alt img)
  ∧ d_type d = if PyStr.contains generated_marker (d_url d)
               then "generated" else "web".
Proof.
  unfold shape_generated_images. intros Hd.
  apply list_elem_of_fmap in Hd as (img & -> & Himg).
  apply list_elem_of_filter in Himg as [Hurl Himg]. simpl.
  split; [by destruct (url img)|].
  split; [by exists img | done].
Qed.

Lemma log_log_all e evs s : log e (log_all evs s) = log_all (evs ++ [e]) s.
Proof. unfold log, log_all. simpl. by rewrite <- app_assoc. Qed.

Lemma log_all_nil s : log_all [] s = s.
Proof. destruct s. unfold log_all. simpl. by rewrite app_nil_r. Qed.

Lemma log_all_log e evs s : log_all evs (log e s) = log_all (e :: evs) s.
Proof. unfold log, log_all. simpl. by rewrite <- app_assoc. Qed.

Section Templates.

Context (W : World) (client : nat) (m : Model).

(** One round of the loop. *)
Lemma try_prompts_cons p rest last_error s :
  try_prompts W client m (p :: rest) last_error s
  = match w_generate W (trace s) client p [] m with
    | Return response =>
        match shape_generated_images (images response) with
        | [] => try_prompts W client m rest
                  (Some ("No images generated with prompt: " ++ p))
                  (log (EGenerate client p [] m) s)
        | imgs => (Return (inl (generate_response imgs response)),
                   log (EGenerate client p [] m) s)
        end
    | Raise e => try_prompts W client m rest (Some (str_exn W e))
                   (log (EGenerate client p [] m) s)
    end.
Proof.
  simpl. unfold bind, try_except, client_generate_content.
  destruct (w_generate W (trace s) client p [] m) as [response|e];
    [|reflexivity].
  by destruct (shape_generated_images (images response)).
Qed.

Lemma attempt_cons p rest s i :
  attempt W s client m (p :: rest) (S i)
  = attempt W (log (EGenerate client p [] m) s) client m rest i.
Proof.
  unfold attempt, attempt_trace, template_calls. simpl.
  by rewrite <- app_assoc.
Qed.

Lemma attempt_first p rest s :
  attempt W s client m (p :: rest) 0 = w_generate W (trace s) client p [] m.
Proof.
  unfold attempt, attempt_trace, template_calls. simpl.
  by rewrite app_nil_r.
Qed.

(** The loop stops at the first template that gives an image: it returns
    that answer and has called upstream for the templates up to it only. *)
Lemma try_prompts_first_image prompts :
  ∀ s last_error i response,
    (i < length prompts)%nat →
    (∀ j, (j < i)%nat →
          yields_image (attempt W s client m prompts j) = false) →
    attempt W s client m prompts i = Return response →
    yields_image (Return response) = true →
    try_prompts W client m prompts last_error s
    = (Return (inl (generate_response
                      (shape_generated_images (images response)) response)),
       log_all (template_calls client m prompts (S i)) s).
Proof.
  induction prompts as [|p rest IH]; intros s last_error i response Hi Hbefore
    Hat Hyes; [simpl in Hi; lia|].
  rewrite try_prompts_cons.
  destruct i as [|i].
  - rewrite attempt_first in Hat. rewrite Hat.
    destruct (shape_generated_images (images response)) eqn:E.
    + apply shape_generated_images_nil in E. simpl in Hyes. congruence.
    + reflexivity.
  - assert (H0 := Hbefore 0%nat ltac:(lia)). rewrite attempt_first in H0.
    assert (Hrest : ∀ le,
      try_prompts W client m rest le (log (EGenerate client p [] m) s)
      = (Return (inl (generate_response
                        (shape_generated_images (images response)) response)),
         log_all (template_calls client m (p :: rest) (S (S i))) s)).
    { intros le.
      rewrite (IH (log (EGenerate client p [] m) s) le i response).
      - by rewrite log_all_log.
      - simpl in Hi. lia.
      - intros j Hj. rewrite <- attempt_cons. apply Hbefore. lia.
      - by rewrite <- attempt_cons.
      - exact Hyes. }
    destruct (w_generate W (trace s) client p [] m) as [r0|e]; [|apply Hrest].
    simpl in H0. apply shape_generated_images_nil in H0. rewrite H0.
    apply Hrest.
Qed.

(** When no template gives an image, the loop calls upstream for every
    template and ends with the reason recorded for the last one. *)
Lemma try_prompts_exhausted prompts :
  ∀ s last_error,
    (∀ j, (j < length prompts)%nat →
          yields_image (attempt W s client m prompts j) = false) →
    try_prompts W client m prompts last_error s
    = (Return (inr (match last prompts with
                    | Some p =>
                        Some (recorded_reason W p
                                (attempt W s client m prompts
                                   (length prompts - 1)))
                    | None => last_error
                    end)),
       log_all (template_calls client m prompts (length prompts)) s).
Proof.
  induction prompts as [|p rest IH]; intros s last_error Hno.
  - simpl. unfold ret, template_calls. simpl. by rewrite log_all_nil.
  - assert (H0 := Hno 0%nat ltac:(simpl; lia)).
    assert (Hrest : try_prompts W client m (p :: rest) last_error s
                    = try_prompts W client m rest
                        (Some (recorded_reason W p
                                 (attempt W s client m (p :: rest) 0)))
                        (log (EGenerate client p [] m) s)).
    { rewrite try_prompts_cons. rewrite attempt_first in H0 |- *.
      destruct (w_generate W (trace s) client p [] m) as [r0|e];
        [|reflexivity].
      simpl in H0. apply shape_generated_images_nil in H0. by rewrite H0. }
    rewrite Hrest, IH.
    + rewrite log_all_log. f_equal.
      destruct rest as [|p' rest']; [reflexivity|].
      change (last (p :: p' :: rest')) with (last (p' :: rest')).
      destruct (last (p' :: rest')) eqn:El;
        [|by apply last_None in El].
      replace (length (p :: p' :: rest') - 1)%nat
        with (S (length (p' :: rest') - 1)) by (simpl; lia).
      by rewrite attempt_cons.
    + intros j Hj. rewrite <- attempt_cons. apply Hno. simpl. lia.
Qed.

End Templates.

Section GenerateImage.

Context (W : World).

(** The two results of the loop, written out. *)
Lemma generate_response_fields imgs response :
  generate_response imgs response
  = {| g_text := text response; g_thoughts := thoughts response;
       g_images := imgs;
       g_chat_metadata :=
         Some {| cm_chat_id := metadata response !! 0%nat;
                 cm_reply_id := metadata response !! 1%nat;
                 cm_reply_candidate_id := rcid response |} |}.
Proof. reflexivity. Qed.

Lemma shape_generated_images_fields imgs :
  shape_generated_images imgs
  = (fun img =>
       {| d_url := url img; d_title := title img; d_alt := alt img;
          d_type :=
            if PyStr.contains "googleusercontent.com/image_generation_content"
                 (url img)
            then "generated" else "web" |})
    <$> filter (fun img => url img ≠ "") imgs.
Proof.
  unfold shape_generated_images. f_equal.
  apply list_filter_iff. intros img. by destruct (url img).
Qed.

Lemma last_error_reason (o : outcome ModelOutput) (p : string) :
  last_error_or_default (Some (recorded_reason W p o))
  = match o with
    | Return _ => "No images generated with prompt: " ++ p
    | Raise e =>
        if PyStr.truthy (str_exn W e) then str_exn W e
        else "Failed to generate image with all prompt variations"
    end.
Proof.
  destruct o as [response|e]; [reflexivity|].
  unfold last_error_or_default. simpl.
  by destruct (PyStr.truthy (str_exn W e)).
Qed.

(** C5 (amended): /generate-image tries its four phrasings in order.  At
    the first one whose answer has an image with a non-empty URL it returns
    that answer (text, thoughts, the images that have a URL, each typed
    "generated" when its URL contains the generated-content marker and "web"
    otherwise, and the chat metadata) and calls upstream for no later
    phrasing.  An attempt that raises leaves its message as the last error
    and the loop goes on, as it does after an answer without image, which
    overwrites the last error in its turn.  When no phrasing gives an image
    the answer is a 500 whose detail is "Failed to generate image: "
    followed by the reason of the fourth attempt alone: its exception
    message if it raised (the generic text if that message is empty), and
    "No images generated with prompt: " with the fourth phrasing if it
    returned. *)
Theorem generate_image_templates request r s client s1 :
  require_client W r missing_cookie_detail s = (Return client, s1) →
  prompts_to_try (ig_prompt request)
  = [ "Create an image of " ++ ig_prompt request;
      "Generate a picture showing " ++ ig_prompt request;
      "Draw " ++ ig_prompt request;
      "Make an image: " ++ ig_prompt request ]
  ∧ (∀ p rest last_error s0 e,
        w_generate W (trace s0) client p []
          (model_mapping_get (ig_model request)) = Raise e →
        try_prompts W client (model_mapping_get (ig_model request))
          (p :: rest) last_error s0
        = try_prompts W client (model_mapping_get (ig_model request)) rest
            (Some (str_exn W e))
            (log (EGenerate client p []
                    (model_mapping_get (ig_model request))) s0))
  ∧ (∀ i response,
        (i < 4)%nat →
        (∀ j, (j < i)%nat →
              yields_image
                (attempt W s1 client (model_mapping_get (ig_model request))
                   (prompts_to_try (ig_prompt request)) j) = false) →
        attempt W s1 client (model_mapping_get (ig_model request))
          (prompts_to_try (ig_prompt request)) i = Return response →
        yields_image (Return response) = true →
        generate_image W request r s
        = (Return (RGenerate
             {| g_text := text response; g_thoughts := thoughts response;
                g_images :=
                  (fun img =>
                     {| d_url := url img; d_title := title img;
                        d_alt := alt img;
                        d_type :=
                          if PyStr.contains
                               "googleusercontent.com/image_generation_content"
                               (url img)
                          then "generated" else "web" |})
                  <$> filter (fun img => url img ≠ "") (images response);
                g_chat_metadata :=
                  Some {| cm_chat_id := metadata response !! 0%nat;
                          cm_reply_id := metadata response !! 1%nat;
                          cm_reply_candidate_id := rcid response |} |}),
           log_all (template_calls client (model_mapping_get (ig_model request))
                      (prompts_to_try (ig_prompt request)) (S i)) s1)
        ∧ filter (fun img => url img ≠ "") (images response) ≠ [])
  ∧ ((∀ j, (j < 4)%nat →
           yields_image
             (attempt W s1 client (model_mapping_get (ig_model request))
                (prompts_to_try (ig_prompt request)) j) = false) →
     generate_image W request r s
     = (Raise (HTTPException 500
                 ("Failed to generate image: "
                  ++ match attempt W s1 client
                             (model_mapping_get (ig_model request))
                             (prompts_to_try (ig_prompt request)) 3 with
                     | Return _ =>
                         "No images generated with prompt: Make an image: "
                         ++ ig_prompt request
                     | Raise e =>
                         if PyStr.truthy (str_exn W e) then str_exn W e
                         else "Failed to generate image with all prompt variations"
                     end)),
        log_all (template_calls client (model_mapping_get (ig_model request))
                   (prompts_to_try (ig_prompt request)) 4) s1)).
Proof.
  intros Hclient. split; [reflexivity|]. split.
  { intros p rest last_error s0 e He. by rewrite try_prompts_cons, He. }
  split.
  - intros i response Hi Hbefore Hat Hyes. split.
    + unfold generate_image, bind. rewrite Hclient.
      unfold try_except, bind.
      rewrite (try_prompts_first_image W client _ _ s1 None i response);
        [|simpl; lia | assumption..].
      by rewrite generate_response_fields, shape_generated_images_fields.
    + intros Hnil. simpl in Hyes.
      assert (Hs : shape_generated_images (images response) = []).
      { by rewrite shape_generated_images_fields, Hnil. }
      apply shape_generated_images_nil in Hs. congruence.
  - intros Hno.
    unfold generate_image, bind. rewrite Hclient.
    unfold try_except, bind.
    rewrite (try_prompts_exhausted W client _ _ s1 None) by exact Hno.
    unfold raise. simpl last. simpl str_exn.
    rewrite (last_error_reason _ ("Make an image: " ++ ig_prompt request)).
    by destruct (attempt W s1 client (model_mapping_get (ig_model request))
                   (prompts_to_try (ig_prompt request)) 3).
Qed.

End GenerateImage.

(** With no image from any phrasing the answer is the 500 of the last one. *)
Lemma generate_image_templates_witness :
  generate_image quiet_world {| ig_prompt := "a cat"; ig_model := "m" |}
    (cookies "__Secure-1PSID=ok") ok_session
  = (Raise (HTTPException 500
              "Failed to generate image: No images generated with prompt: Make an image: a cat"),
     log_all (template_calls 0 G_2_5_FLASH (prompts_to_try "a cat") 4)
       ok_session).
Proof.
  destruct (generate_image_templates quiet_world
              {| ig_prompt := "a cat"; ig_model := "m" |}
              (cookies "__Secure-1PSID=ok") ok_session 0%nat ok_session)
    as (_ & _ & _ & H); [reflexivity|].
  apply H. intros j Hj. reflexivity.
Defined.

(** The upstream that draws for the fourth phrasing only is asked four
    times, the raising second attempt included, and its answer is returned. *)
Example generate_image_fourth_template :
  generate_image fourth_world {| ig_prompt := "a cat"; ig_model := "m" |}
    (cookies "__Secure-1PSID=ok") ok_session
  = (Return (RGenerate
       {| g_text := "here"; g_thoughts := None;
          g_images := [{| d_url := url sample_image;
                          d_title := "[Generated Image]"; d_alt := "";
                          d_type := "generated" |}];
          g_chat_metadata := Some {| cm_chat_id := Some "c1";
                                     cm_reply_id := Some "r1";
                                     cm_reply_candidate_id := "rc1" |} |}),
     log_all [EGenerate 0 "Create an image of a cat" [] G_2_5_FLASH;
              EGenerate 0 "Generate a picture showing a cat" [] G_2_5_FLASH;
              EGenerate 0 "Draw a cat" [] G_2_5_FLASH;
              EGenerate 0 "Make an image: a cat" [] G_2_5_FLASH] ok_session).
Proof. reflexivity. Qed.

(** ** Staged attachments *)

Section Attachments.

Context (W : World).

(** The release loop of /generate-with-files never raises, whatever
    [os.unlink] does, and tries every path once, in order. *)
Lemma cleanup_temp_files_total paths :
  ∀ s, ∃ s',
    cleanup_temp_files W paths s = (Return (), s')
    ∧ trace s' = (trace s ++ (EUnlink <$> paths))%list
    ∧ client_cache s' = client_cache s
    ∧ objects s' = objects s.
Proof.
  induction paths as [|path rest IH]; intros s.
  - exists s. simpl. by rewrite app_nil_r.
  - assert (Hone : ∃ s1,
        try_except (os_unlink W path) (fun _ => ret ()) s = (Return (), s1)
        ∧ trace s1 = (trace s ++ [EUnlink path])%list
        ∧ client_cache s1 = client_cache s ∧ objects s1 = objects s).
    { unfold try_except, os_unlink, ret.
      destruct (w_unlink W (trace s) path) as [[]|e]; eexists; done. }
    destruct Hone as (s1 & Hone & Ht1 & Hc1 & Ho1).
    destruct (IH s1) as (s' & Hrest & Ht & Hc & Ho).
    exists s'. simpl. unfold bind at 1. rewrite Hone, Hrest.
    rewrite Ht, Ht1, Hc, Hc1, Ho, Ho1. simpl.
    by rewrite <- app_assoc.
Qed.

(** The staging loop hands back a list and never raises itself. *)
Lemma stage_files_total files :
  ∀ staged s, ∃ staged' failure s',
    stage_files W files staged s = (Return (staged', failure), s').
Proof.
  induction files as [|file rest IH]; intros staged s; simpl.
  - by eexists _, _, _.
  - destruct (stage_upload W file s) as [[path|e] s1].
    + apply IH.
    + by eexists _, _, _.
Qed.

(** In /generate-with-files the release phase runs on every path out of
    the handler and leaves the outcome alone: it is the outcome of the
    staging and the upstream call, whether or not the unlinks succeed. *)
Lemma generate_with_files_release_swallowed p model_name files r s client s1 :
  require_client W r missing_cookie_detail s = (Return client, s1) →
  ∃ staged failure s2 s3,
    stage_files W files [] s1 = (Return (staged, failure), s2)
    ∧ (generate_with_files W p model_name files r s).1
      = match failure with
        | Some e =>
            Raise (HTTPException 500
                     ("Failed to generate content with files: " ++ str_exn W e))
        | None =>
            match w_generate W (trace s2) client p staged
                    (model_mapping_get model_name) with
            | Return response =>
                Return (RGenerate (generate_response
                                     (shape_images (images response)) response))
            | Raise e =>
                Raise (HTTPException 500
                         ("Failed to generate content with files: "
                          ++ str_exn W e))
            end
        end
    ∧ (generate_with_files W p model_name files r s).2 = s3
    ∧ ∃ before, trace s3 = (before ++ (EUnlink <$> staged))%list.
Proof.
  intros Hclient.
  destruct (stage_files_total files [] s1) as (staged & failure & s2 & Hstage).
  unfold generate_with_files, bind. rewrite Hclient, Hstage.
  unfold try_finally.
  destruct failure as [e|].
  - unfold try_except, raise.
    destruct (cleanup_temp_files_total staged s2) as (s3 & -> & Ht & _).
    exists staged, (Some e), s2, s3. simpl.
    repeat (split; [reflexivity|]). eexists. exact Ht.
  - unfold try_except, bind, client_generate_content, ret, raise.
    destruct (w_generate W (trace s2) client p staged
                (model_mapping_get model_name)) as [response|e] eqn:Hgen.
    + destruct (cleanup_temp_files_total staged
                  (log (EGenerate client p staged
                          (model_mapping_get model_name)) s2))
        as (s3 & -> & Ht & _).
      exists staged, None, s2, s3. simpl. rewrite Hgen.
      repeat (split; [reflexivity|]). eexists. exact Ht.
    + destruct (cleanup_temp_files_total staged
                  (log (EGenerate client p staged
                          (model_mapping_get model_name)) s2))
        as (s3 & -> & Ht & _).
      exists staged, None, s2, s3. simpl. rewrite Hgen.
      repeat (split; [reflexivity|]). eexists. exact Ht.
Qed.

(** In /edit-image the unlink sits bare in the [finally]: when it raises,
    its exception is what the handler's [except] sees. *)
Lemma edit_image_release_raises p model_name image r s client s1 path s2 e :
  require_client W r missing_cookie_detail s = (Return client, s1) →
  stage_upload W image s1 = (Return path, s2) →
  w_unlink W (trace s2 ++ [EGenerate client ("Edit this image: " ++ p) [path]
                             (model_mapping_get model_name)]) path = Raise e →
  (edit_image W p model_name image r s).1
  = Raise (HTTPException 500 ("Failed to edit image: " ++ str_exn W e)).
Proof.
  intros Hclient Hstage Hunlink.
  unfold edit_image, bind. rewrite Hclient.
  unfold try_except, bind. rewrite Hstage.
  unfold try_finally, bind, client_generate_content, os_unlink, ret, raise.
  destruct (w_generate W (trace s2) client ("Edit this image: " ++ p) [path]
              (model_mapping_get model_name)); simpl; by rewrite Hunlink.
Qed.

End Attachments.

(** C7, on the code: with upstream answering and [os.unlink] failing,
    /generate-with-files still returns the answer, but /edit-image answers
    500 with the unlink error; and when upstream fails as well, /edit-image
    reports the unlink error in place of the upstream one. *)
Theorem edit_image_release_failure_surfaces :
  w_generate sticky_world
    [EInit 0; EMkTemp "/tmp/upload.png"] 0%nat "Edit this image: brighter"
    ["/tmp/upload.png"] G_2_5_FLASH = Return sample_output
  ∧ (edit_image sticky_world "brighter" "gemini-2.5-flash" sample_upload
       (cookies "__Secure-1PSID=ok") ok_session).1
    = Raise (HTTPException 500 "Failed to edit image: Permission denied")
  ∧ (edit_image quiet_world "brighter" "gemini-2.5-flash" sample_upload
       (cookies "__Secure-1PSID=ok") ok_session).1
    = Return (RGenerate (generate_response [] sample_output))
  ∧ (generate_with_files sticky_world "brighter" "gemini-2.5-flash"
       [sample_upload] (cookies "__Secure-1PSID=ok") ok_session).1
    = Return (RGenerate (generate_response [] sample_output))
  ∧ (edit_image broken_sticky_world "brighter" "gemini-2.5-flash" sample_upload
       (cookies "__Secure-1PSID=ok") ok_session).1
    = Raise (HTTPException 500 "Failed to edit image: Permission denied")
  ∧ (generate_with_files broken_sticky_world "brighter" "gemini-2.5-flash"
       [sample_upload] (cookies "__Secure-1PSID=ok") ok_session).1
    = Raise (HTTPException 500
               "Failed to generate content with files: upstream unavailable").
Proof. repeat split. Qed.

(** ** Well-formed caches *)

Lemma cache_ok_same s s' :
  client_cache s' = client_cache s →
  length (objects s') = length (objects s) →
  cache_ok s → cache_ok s'.
Proof. unfold cache_ok. intros -> ->. done. Qed.

Lemma cache_ok_initial : cache_ok initial_state.
Proof. split; intros *; simpl; by rewrite lookup_empty. Qed.

Lemma cache_ok_drift s s' : liveness_drift s s' → cache_ok s → cache_ok s'.
Proof.
  intros (Hc & Hcred & _). apply cache_ok_same; [done|].
  by rewrite <- (length_fmap credentials), Hcred, length_fmap.
Qed.

Lemma keeps_ret {A} (a : A) : keeps (ret a).
Proof. by intros s. Qed.

Lemma keeps_raise {A} (e : exn) : keeps (@raise A e).
Proof. by intros s. Qed.

Lemma keeps_lift {A} (o : outcome A) : keeps (lift o).
Proof. by intros s. Qed.

Lemma keeps_bind {A B} (m : M A) (k : A → M B) :
  keeps m → (∀ a, keeps (k a)) → keeps (bind m k).
Proof.
  intros Hm Hk s Hs. unfold bind. specialize (Hm s Hs).
  destruct (m s) as [[a|e] s1]; [by apply Hk | done].
Qed.

Lemma keeps_try_except {A} (m : M A) (h : exn → M A) :
  keeps m → (∀ e, keeps (h e)) → keeps (try_except m h).
Proof.
  intros Hm Hh s Hs. unfold try_except. specialize (Hm s Hs).
  destruct (m s) as [[a|e] s1]; [done | by apply Hh].
Qed.

Lemma keeps_try_finally {A} (m : M A) (fin : M unit) :
  keeps m → keeps fin → keeps (try_finally m fin).
Proof.
  intros Hm Hf s Hs. unfold try_finally. specialize (Hm s Hs).
  destruct (m s) as [o s1]. specialize (Hf s1 Hm).
  by destruct (fin s1) as [[[]|e] s2].
Qed.

(** A step that touches neither the cache nor the number of clients. *)
Lemma keeps_same {A} (m : M A) :
  (∀ s, client_cache (m s).2 = client_cache s
        ∧ length (objects (m s).2) = length (objects s)) →
  keeps m.
Proof. intros H s. destruct (H s). by apply cache_ok_same. Qed.

Section Invariant.

Context (W : World).

Lemma keeps_client_generate_content client p files m :
  keeps (client_generate_content W client p files m).
Proof. by apply keeps_same. Qed.

Lemma keeps_client_chat client md m p : keeps (client_chat W client md m p).
Proof. by apply keeps_same. Qed.

Lemma keeps_named_temporary_file suffix :
  keeps (named_temporary_file W suffix).
Proof.
  apply keeps_same. intros s. unfold named_temporary_file.
  by destruct (w_mktemp W (trace s) suffix).
Qed.

Lemma keeps_os_unlink path : keeps (os_unlink W path).
Proof.
  apply keeps_same. intros s. unfold os_unlink.
  by destruct (w_unlink W (trace s) path) as [[]|].
Qed.

Lemma keeps_save_image client u : keeps (save_image W client u).
Proof. by apply keeps_same. Qed.

Lemma keeps_get_client_for_cookies psid psidts :
  keeps (get_client_for_cookies W psid psidts).
Proof.
  intros s [Hbound Hinj].
  destruct (cached_live_or_not psid psidts s) as [(c & Hc & Hr)|Hdead].
  - by rewrite (get_client_cached W _ _ _ _ Hc Hr).
  - destruct (get_client_created W psid psidts s Hdead)
      as (s3 & -> & Hcache & _ & Hlen & _).
    simpl. unfold cache_ok. rewrite Hcache, Hlen.
    destruct (w_init W (trace s) (length (objects s)) psid psidts).
    + split.
      * intros k c. rewrite lookup_insert. case_decide.
        -- intros [= <-]. lia.
        -- intros Hk. apply Hbound in Hk. lia.
      * intros k1 k2 c. rewrite !lookup_insert.
        repeat case_decide; subst; try done.
        -- intros [= <-] Hk. apply Hbound in Hk. lia.
        -- intros Hk [= <-]. apply Hbound in Hk. lia.
        -- apply Hinj.
    + split.
      * intros k c Hk. apply lookup_delete_Some in Hk as [_ Hk].
        apply Hbound in Hk. lia.
      * intros k1 k2 c Hk1 Hk2.
        apply lookup_delete_Some in Hk1 as [_ Hk1].
        apply lookup_delete_Some in Hk2 as [_ Hk2]. by eapply Hinj.
Qed.

Lemma keeps_require_client r detail : keeps (require_client W r detail).
Proof.
  unfold require_client.
  destruct (extract_cookies_from_request r) as [psid psidts].
  destruct (negb (PyStr.otruthy psid));
    [apply keeps_raise | apply keeps_get_client_for_cookies].
Qed.

Lemma keeps_try_prompts client m prompts :
  ∀ last_error, keeps (try_prompts W client m prompts last_error).
Proof.
  induction prompts as [|p rest IH]; intros last_error; simpl.
  - apply keeps_ret.
  - apply keeps_bind.
    + apply keeps_try_except; [|intros; apply keeps_ret].
      apply keeps_bind; [apply keeps_client_generate_content|].
      intros response.
      destruct (shape_generated_images (images response)); apply keeps_ret.
    + intros [resp|le]; [apply keeps_ret | apply IH].
Qed.

Lemma keeps_stage_upload file : keeps (stage_upload W file).
Proof.
  unfold stage_upload. apply keeps_bind; [apply keeps_named_temporary_file|].
  intros path. apply keeps_bind; [apply keeps_lift | intros; apply keeps_ret].
Qed.

Lemma keeps_stage_files files : ∀ staged, keeps (stage_files W files staged).
Proof.
  induction files as [|file rest IH]; intros staged; simpl.
  - apply keeps_ret.
  - intros s Hs. assert (H1 := keeps_stage_upload file s Hs).
    destruct (stage_upload W file s) as [[path|e] s1]; [by apply IH | done].
Qed.

Lemma keeps_cleanup_temp_files paths : keeps (cleanup_temp_files W paths).
Proof.
  induction paths as [|path rest IH]; simpl.
  - apply keeps_ret.
  - apply keeps_bind; [|intros; apply IH].
    apply keeps_try_except; [apply keeps_os_unlink | intros; apply keeps_ret].
Qed.

(** The handlers are built from the steps above by sequencing and
    [try] blocks; [keeps_steps] walks through such a body. *)
Ltac keeps_steps :=
  repeat first
    [ progress intros
    | apply keeps_ret | apply keeps_raise | apply keeps_lift
    | apply keeps_require_client | apply keeps_get_client_for_cookies
    | apply keeps_client_generate_content | apply keeps_client_chat
    | apply keeps_try_prompts | apply keeps_stage_upload
    | apply keeps_stage_files | apply keeps_cleanup_temp_files
    | apply keeps_os_unlink | apply keeps_save_image
    | apply keeps_bind | apply keeps_try_except | apply keeps_try_finally
    | case_match ].

Lemma keeps_handle call r : keeps (handle W call r).
Proof.
  destruct call; simpl;
    unfold generate_content, chat_with_history, generate_image,
      test_image_generation, edit_image, generate_with_files, download_image;
    keeps_steps.
Qed.

(** Every state the server reaches has a well-formed cache. *)
Lemma reachable_cache_ok s : reachable W s → cache_ok s.
Proof.
  induction 1 as [|s call r _ IH|s s' _ IH Hdrift].
  - apply cache_ok_initial.
  - by apply keeps_handle.
  - by eapply cache_ok_drift.
Qed.

End Invariant.

(** ** Shutdown *)

Lemma closes_snoc client tr e :
  closes client (tr ++ [e])
  = (closes client tr + (if is_close_of client e then 1 else 0))%nat.
Proof.
  unfold closes. rewrite filter_app, length_app. f_equal.
  rewrite filter_cons, filter_nil.
  destruct (is_close_of client e); reflexivity.
Qed.

Lemma stored_clients (cache : gmap string nat) (client : nat) :
  client ∈ (map_to_list cache).*2 ↔ ∃ k, cache !! k = Some client.
Proof.
  rewrite list_elem_of_fmap. split.
  - intros ([k c] & -> & Hin). exists k. by apply elem_of_map_to_list.
  - intros (k & Hk). exists (k, client). split; [done|].
    by apply elem_of_map_to_list.
Qed.

Lemma stored_clients_NoDup (cache : gmap string nat) :
  (∀ k1 k2 c, cache !! k1 = Some c → cache !! k2 = Some c → k1 = k2) →
  NoDup (map_to_list cache).*2.
Proof.
  intros Hinj. apply NoDup_fmap_2_strong; [|apply NoDup_map_to_list].
  intros [k1 c1] [k2 c2] H1 H2. simpl. intros <-.
  apply elem_of_map_to_list in H1, H2. f_equal. by eapply Hinj.
Qed.

Section Shutdown.

Context (W : World).

(** The closing loop over distinct clients closes each running one once. *)
Lemma close_running_each_once clients :
  NoDup clients →
  ∀ s,
    (∀ tr client, client ∈ clients → is_running s client = true →
                  w_close W tr client = Return ()) →
    ∃ s',
      close_running W clients s = (Return (), s')
      ∧ client_cache s' = client_cache s
      ∧ (∀ client, client ∈ clients → is_running s client = true →
                   closes client (trace s') = S (closes client (trace s)))
      ∧ (∀ client, ¬ (client ∈ clients ∧ is_running s client = true) →
                   closes client (trace s') = closes client (trace s)).
Proof.
  induction 1 as [|c rest Hnotin Hnodup IH]; intros s Hclose.
  - exists s. simpl. split; [done|]. split; [done|]. split; [|done].
    intros client Hin. by apply elem_of_nil in Hin.
  - simpl. unfold bind at 1.
    destruct (is_running s c) eqn:Hc.
    + unfold client_close.
      rewrite (Hclose (trace s) c) by (done || left).
      set (s1 := set_running c false (log (EClose c) s)).
      assert (Hother : ∀ client, client ≠ c →
                is_running s1 client = is_running s client).
      { intros client Hne. unfold s1.
        by rewrite is_running_set_running_ne. }
      assert (Htrace : trace s1 = (trace s ++ [EClose c])%list).
      { unfold s1. by rewrite set_running_trace. }
      destruct (IH s1) as (s' & Hrun & Hcache & Hlive & Hrest).
      { intros tr client Hin Hr. apply Hclose; [by right|].
        rewrite <- Hother; [done|]. intros ->. done. }
      exists s'. split; [exact Hrun|].
      split; [by rewrite Hcache; unfold s1; rewrite set_running_cache|].
      split.
      * intros client Hin Hr. apply elem_of_cons in Hin as [->|Hin].
        -- rewrite Hrest by (intros [? _]; done).
           rewrite Htrace, closes_snoc. simpl. rewrite Nat.eqb_refl. lia.
        -- assert (client ≠ c) by (intros ->; done).
           rewrite Hlive by (by rewrite ?Hother).
           rewrite Htrace, closes_snoc. simpl.
           rewrite (proj2 (Nat.eqb_neq c client)) by done. lia.
      * intros client Hnot.
        assert (client ≠ c).
        { intros ->. apply Hnot. split; [left|done]. }
        rewrite Hrest.
        -- rewrite Htrace, closes_snoc. simpl.
           rewrite (proj2 (Nat.eqb_neq c client)) by done. lia.
        -- intros [Hin Hr]. apply Hnot. split; [by right|].
           by rewrite <- Hother.
    + destruct (IH s) as (s' & Hrun & Hcache & Hlive & Hrest).
      { intros tr client Hin Hr. apply Hclose; [by right | done]. }
      exists s'. split; [exact Hrun|]. split; [exact Hcache|]. split.
      * intros client Hin Hr. apply elem_of_cons in Hin as [->|Hin];
          [congruence | by apply Hlive].
      * intros client Hnot. apply Hrest. intros [Hin Hr].
        apply Hnot. split; [by right | done].
Qed.

(** C8: when the cache is well-formed and upstream [close] returns for
    the live sessions, [shutdown_event] returns with the cache empty, every
    client stored with a true liveness flag has been closed exactly once
    more, and no [close] went to any other client. *)
Theorem shutdown_closes_live_sessions s :
  cache_ok s →
  (∀ tr client, live_entry s client → w_close W tr client = Return ()) →
  ∃ s',
    shutdown_event W s = (Return (), s')
    ∧ client_cache s' = ∅
    ∧ (∀ client, live_entry s client →
                 closes client (trace s') = S (closes client (trace s)))
    ∧ (∀ client, ¬ live_entry s client →
                 closes client (trace s') = closes client (trace s)).
Proof.
  intros [_ Hinj] Hclose.
  destruct (close_running_each_once (map_to_list (client_cache s)).*2
              (stored_clients_NoDup _ Hinj) s)
    as (s1 & Hrun & _ & Hlive & Hrest).
  { intros tr client Hin Hr. apply Hclose. split; [|done].
    by apply stored_clients. }
  exists (set_client_cache ∅ s1).
  split; [unfold shutdown_event, bind; by rewrite Hrun|].
  split; [done|]. split.
  - intros client [Hstored Hr]. apply Hlive; [|done].
    by apply stored_clients.
  - intros client Hnot. apply Hrest. intros [Hin Hr]. apply Hnot.
    split; [|done]. by apply stored_clients.
Qed.

End Shutdown.

(** After one served request the cache holds the live session of ["ok"];
    shutdown closes it once and empties the cache. *)
Lemma shutdown_closes_live_sessions_witness :
  ∃ s', shutdown_event quiet_world served_session = (Return (), s')
        ∧ client_cache s' = ∅
        ∧ closes 0 (trace s') = 1%nat.
Proof.
  destruct (shutdown_closes_live_sessions quiet_world served_session)
    as (s' & Hrun & Hempty & Hlive & _).
  - apply (reachable_cache_ok quiet_world).
    apply (reach_handle quiet_world initial_state PostTestImageGen
             (cookies "__Secure-1PSID=ok")).
    apply reach_initial.
  - reflexivity.
  - exists s'. split; [exact Hrun|]. split; [exact Hempty|].
    rewrite Hlive; [reflexivity|].
    split; [by exists (cache_key "ok" None) | reflexivity].
Defined.

(** * Further properties of the code *)

(** ** Cookie headers *)

Lemma string_app_cons x (a b : string) : String x a ++ b = String x (a ++ b).
Proof. reflexivity. Qed.

Lemma string_app_assoc (a b c : string) : (a ++ b) ++ c = a ++ (b ++ c).
Proof.
  induction a as [|x a IH]; [done|].
  by rewrite !string_app_cons, IH.
Qed.

Lemma has_char_app c (a b : string) :
  has_char c (a ++ b) = has_char c a || has_char c b.
Proof.
  induction a as [|x a IH]; [done|].
  rewrite string_app_cons. simpl. by rewrite IH, orb_assoc.
Qed.

Lemma split_no_sep c (a : string) :
  has_char c a = false → PyStr.split c a = [a].
Proof.
  induction a as [|x a IH]; simpl; [done|].
  intros H. apply orb_false_iff in H as [Hx Ha].
  by rewrite Hx, (IH Ha).
Qed.

Lemma split_app_sep c (a b : string) :
  has_char c a = false →
  PyStr.split c (a ++ String c b) = a :: PyStr.split c b.
Proof.
  induction a as [|x a IH].
  - intros _. change ("" ++ String c b) with (String c b). simpl.
    by rewrite Ascii.eqb_refl.
  - intros H. simpl in H. apply orb_false_iff in H as [Hx Ha].
    rewrite string_app_cons. simpl. by rewrite Hx, (IH Ha).
Qed.

Lemma rstrip_cons c (r : string) :
  PyStr.isspace c = false →
  PyStr.rstrip (String c r) = String c (PyStr.rstrip r).
Proof. intros H. simpl. destruct (PyStr.rstrip r); by rewrite ?H. Qed.

Lemma strip_primary_segment (p : string) :
  PyStr.strip ("__Secure-1PSID=" ++ p) = "__Secure-1PSID=" ++ PyStr.rstrip p.
Proof.
  unfold PyStr.strip.
  change (PyStr.lstrip ("__Secure-1PSID=" ++ p)) with ("__Secure-1PSID=" ++ p).
  cbv [String.append]. by rewrite !rstrip_cons by reflexivity.
Qed.

Lemma strip_secondary_segment (t : string) :
  PyStr.strip (" __Secure-1PSIDTS=" ++ t)
  = "__Secure-1PSIDTS=" ++ PyStr.rstrip t.
Proof.
  unfold PyStr.strip.
  change (PyStr.lstrip (" __Secure-1PSIDTS=" ++ t))
    with ("__Secure-1PSIDTS=" ++ t).
  cbv [String.append]. by rewrite !rstrip_cons by reflexivity.
Qed.

Lemma startswith_secondary (v : string) :
  PyStr.startswith ("__Secure-1PSIDTS=" ++ v) "__Secure-1PSID=" = false
  ∧ PyStr.startswith ("__Secure-1PSIDTS=" ++ v) "__Secure-1PSIDTS=" = true.
Proof. split; [reflexivity | by destruct v]. Qed.

(** X1: the header [__Secure-1PSID=p; __Secure-1PSIDTS=t] of the curl
    examples gives back both values, up to whitespace at their end, as long
    as neither contains a semicolon; without the second cookie the secondary
    token is [None]. *)
Theorem extract_cookie_pair (p t : string) :
  has_char ";" p = false →
  has_char ";" t = false →
  extract_cookies_from_request (cookies (cookie_pair_header p t))
  = (Some (PyStr.rstrip p), Some (PyStr.rstrip t))
  ∧ extract_cookies_from_request (cookies ("__Secure-1PSID=" ++ p))
    = (Some (PyStr.rstrip p), None).
Proof.
  intros Hp Ht.
  assert (Hseg : has_char ";" ("__Secure-1PSID=" ++ p) = false).
  { by rewrite has_char_app, Hp. }
  assert (Hseg2 : has_char ";" (" __Secure-1PSIDTS=" ++ t) = false).
  { by rewrite has_char_app, Ht. }
  assert (Hfirst : ∀ acc,
            extract_step acc ("__Secure-1PSID=" ++ p)
            = (Some (PyStr.rstrip p), acc.2)).
  { intros acc. unfold extract_step.
    rewrite strip_primary_segment, startswith_primary.
    by rewrite cookie_value_primary. }
  unfold extract_cookies_from_request, cookies, cookie_pair_header. simpl default.
  split.
  - replace ("__Secure-1PSID=" ++ p ++ "; __Secure-1PSIDTS=" ++ t)
      with (("__Secure-1PSID=" ++ p) ++ String ";" (" __Secure-1PSIDTS=" ++ t))
      by (by rewrite string_app_assoc).
    rewrite split_app_sep, split_no_sep by assumption.
    simpl fold_left. rewrite Hfirst. unfold extract_step.
    rewrite strip_secondary_segment.
    destruct (startswith_secondary (PyStr.rstrip t)) as [-> ->].
    by rewrite cookie_value_secondary.
  - rewrite split_no_sep by assumption. simpl fold_left. by rewrite Hfirst.
Qed.

Lemma extract_cookie_pair_witness :
  extract_cookies_from_request (cookies (cookie_pair_header "g.a000 " "sidts-x"))
  = (Some "g.a000", Some "sidts-x").
Proof.
  apply (extract_cookie_pair "g.a000 " "sidts-x"); reflexivity.
Defined.

Lemma extract_fold_none segs :
  ∀ acc, (fold_left extract_step segs acc).1 = None →
         acc.1 = None
         ∧ Forall (fun c => PyStr.startswith (PyStr.strip c) "__Secure-1PSID="
                            = false) segs.
Proof.
  induction segs as [|seg segs IH]; intros acc H; simpl in H.
  - by split.
  - apply IH in H as [Hstep Hrest]. unfold extract_step in Hstep.
    destruct (PyStr.startswith (PyStr.strip seg) "__Secure-1PSID=") eqn:E;
      [discriminate|].
    split; [|by constructor].
    by destruct (PyStr.startswith (PyStr.strip seg) "__Secure-1PSIDTS=").
Qed.

(** X2: the primary token is missing exactly when no segment of the header,
    once stripped, starts with [__Secure-1PSID=]; the name of the secondary
    cookie, which extends it, is not taken for it. *)
Theorem primary_token_missing_iff (r : Request) :
  ((extract_cookies_from_request r).1 = None
   ↔ Forall (fun c => PyStr.startswith (PyStr.strip c) "__Secure-1PSID="
                      = false)
            (PyStr.split ";" (default "" (cookie_header r))))
  ∧ ∀ v, PyStr.startswith ("__Secure-1PSIDTS=" ++ v) "__Secure-1PSID=" = false.
Proof.
  split; [|intros v; apply startswith_secondary].
  unfold extract_cookies_from_request. split.
  - intros H. by apply extract_fold_none in H as [_ H].
  - intros H. by rewrite extract_fold_keeps_primary.
Qed.

(** ** Cache keys *)

Lemma colon_split (p1 p2 a b : string) :
  has_char ":" p1 = false → has_char ":" p2 = false →
  p1 ++ ":" ++ a = p2 ++ ":" ++ b → p1 = p2 ∧ a = b.
Proof.
  revert p2. induction p1 as [|x p1 IH]; intros [|y p2] H1 H2 H.
  - change (String ":" a = String ":" b) in H. by injection H as <-.
  - change (String ":" a = String y (p2 ++ ":" ++ b)) in H.
    injection H as <- _. discriminate.
  - change (String x (p1 ++ ":" ++ a) = String ":" b) in H.
    injection H as -> _. discriminate.
  - change (String x (p1 ++ ":" ++ a) = String y (p2 ++ ":" ++ b)) in H.
    injection H as -> H. simpl in H1, H2.
    apply orb_false_iff in H1 as [_ H1]. apply orb_false_iff in H2 as [_ H2].
    by destruct (IH p2 H1 H2 H) as [-> ->].
Qed.

(** X3: for primary tokens without a colon the cache key determines the
    identity pair, up to reading an empty secondary token as an absent one:
    two callers get the same key only with the same primary token and the
    same secondary token. *)
Theorem cache_key_injective (p1 p2 : string) (t1 t2 : option string) :
  has_char ":" p1 = false →
  has_char ":" p2 = false →
  cache_key p1 t1 = cache_key p2 t2 →
  p1 = p2 ∧ PyStr.or_empty t1 = PyStr.or_empty t2.
Proof. unfold cache_key. apply colon_split. Qed.

Lemma cache_key_injective_witness :
  "g.a000" = "g.a000" ∧ PyStr.or_empty (Some "") = PyStr.or_empty None.
Proof.
  apply (cache_key_injective "g.a000" "g.a000" (Some "") None); reflexivity.
Defined.

(** ** Relations kept by every run *)

Section Within.

Context (R : relation state) `{!PreOrder R}.

Lemma within_ret {A} (a : A) : within R (ret a).
Proof. intros s. reflexivity. Qed.

Lemma within_raise {A} (e : exn) : within R (@raise A e).
Proof. intros s. reflexivity. Qed.

Lemma within_lift {A} (o : outcome A) : within R (lift o).
Proof. intros s. reflexivity. Qed.

Lemma within_bind {A B} (m : M A) (k : A → M B) :
  within R m → (∀ a, within R (k a)) → within R (bind m k).
Proof.
  intros Hm Hk s. unfold bind. specialize (Hm s).
  destruct (m s) as [[a|e] s1]; [|done].
  etrans; [exact Hm | apply Hk].
Qed.

Lemma within_try_except {A} (m : M A) (h : exn → M A) :
  within R m → (∀ e, within R (h e)) → within R (try_except m h).
Proof.
  intros Hm Hh s. unfold try_except. specialize (Hm s).
  destruct (m s) as [[a|e] s1]; [done|].
  etrans; [exact Hm | apply Hh].
Qed.

Lemma within_try_finally {A} (m : M A) (fin : M unit) :
  within R m → within R fin → within R (try_finally m fin).
Proof.
  intros Hm Hf s. unfold try_finally. specialize (Hm s).
  destruct (m s) as [o s1]. specialize (Hf s1).
  destruct (fin s1) as [[[]|e] s2]; by etrans.
Qed.

End Within.

Lemma grown_by_refl ok s : grown_by ok s s.
Proof. exists []. by rewrite app_nil_r. Qed.

Lemma grown_by_trans ok s1 s2 s3 :
  grown_by ok s1 s2 → grown_by ok s2 s3 → grown_by ok s1 s3.
Proof.
  intros (e1 & H1 & Hok1) (e2 & H2 & Hok2). exists (e1 ++ e2)%list.
  rewrite H2, H1, <- app_assoc, forallb_app, Hok1, Hok2. done.
Qed.

Lemma grown_by_log ok e s : ok e = true → grown_by ok s (log e s).
Proof. intros H. exists [e]. simpl. by rewrite H. Qed.

#[global] Instance grown_by_preorder ok : PreOrder (grown_by ok).
Proof.
  split; [intros s; apply grown_by_refl|].
  intros s1 s2 s3. apply grown_by_trans.
Qed.

#[global] Instance quiet_step_preorder : PreOrder quiet_step.
Proof.
  split.
  - intros s. repeat split. apply grown_by_refl.
  - intros s1 s2 s3 (Hc1 & Ho1 & Hg1) (Hc2 & Ho2 & Hg2).
    split; [congruence|]. split; [congruence|]. by eapply grown_by_trans.
Qed.

#[global] Instance isolated_preorder k : PreOrder (isolated k).
Proof.
  split.
  - intros s. by split.
  - intros s1 s2 s3 [Hc1 Ho1] [Hc2 Ho2]. split.
    + intros k' Hk'. by rewrite Hc2, Hc1.
    + by etrans.
Qed.

Section Steps.

Context (W : World).

(** The calls to the outside that the handlers make after the acquire step
    are quiet. *)
Lemma quiet_client_generate_content client p files m :
  within quiet_step (client_generate_content W client p files m).
Proof. intros s. repeat split. by apply grown_by_log. Qed.

Lemma quiet_client_chat client md m p :
  within quiet_step (client_chat W client md m p).
Proof.
  intros s. repeat split.
  exists [EStartChat client md m; ESendMessage client p].
  split; [|done]. simpl. by rewrite <- app_assoc.
Qed.

Lemma quiet_named_temporary_file suffix :
  within quiet_step (named_temporary_file W suffix).
Proof.
  intros s. unfold named_temporary_file.
  destruct (w_mktemp W (trace s) suffix); [|reflexivity].
  repeat split. by apply grown_by_log.
Qed.

Lemma quiet_os_unlink path : within quiet_step (os_unlink W path).
Proof.
  intros s. unfold os_unlink.
  destruct (w_unlink W (trace s) path) as [[]|];
    repeat split; by apply grown_by_log.
Qed.

Lemma quiet_save_image client u : within quiet_step (save_image W client u).
Proof. intros s. repeat split. by apply grown_by_log. Qed.

(** What the acquire step does to the state: nothing at all, or one new
    client object constructed from the cookies, one [init] on it, and the
    entry of the key either set to it or removed. *)
Lemma get_client_effect psid psidts s :
  (get_client_for_cookies W psid psidts s).2 = s
  ∨ ∃ flag,
      objects (get_client_for_cookies W psid psidts s).2
      = (objects s ++ [{| secure_1psid := psid; secure_1psidts := psidts;
                          _running := flag |}])%list
      ∧ trace (get_client_for_cookies W psid psidts s).2
        = (trace s ++ [EInit (length (objects s))])%list
      ∧ temp_files (get_client_for_cookies W psid psidts s).2 = temp_files s
      ∧ (client_cache (get_client_for_cookies W psid psidts s).2
         = <[cache_key psid psidts := length (objects s)]> (client_cache s)
         ∨ client_cache (get_client_for_cookies W psid psidts s).2
           = delete (cache_key psid psidts) (client_cache s)).
Proof.
  destruct (cached_live_or_not psid psidts s) as [(c & Hc & Hr)|Hdead].
  { left. by rewrite (get_client_cached W _ _ _ _ Hc Hr). }
  right.
  set (key := cache_key psid psidts).
  set (fresh := {| secure_1psid := psid; secure_1psidts := psidts;
                   _running := false |}).
  assert (Hgen : ∀ cache' : gmap string nat,
    <[key := length (objects s)]> cache'
      = <[key := length (objects s)]> (client_cache s) →
    cache' = delete key (client_cache s) →
    ∀ s',
      s' = ((let* client := new_client psid psidts in
             try_except
               (let* _ := client_init W client psid psidts in
                let* _ := (fun s0 => (Return (),
                             set_client_cache
                               (<[key := client]> (client_cache s0)) s0)) in
                ret client)
               (fun e => raise (HTTPException 401 (init_failure_detail W e))))
              (set_client_cache cache' s)).2 →
    ∃ flag,
      objects s' = (objects s ++ [{| secure_1psid := psid;
                                     secure_1psidts := psidts;
                                     _running := flag |}])%list
      ∧ trace s' = (trace s ++ [EInit (length (objects s))])%list
      ∧ temp_files s' = temp_files s
      ∧ (client_cache s' = <[key := length (objects s)]> (client_cache s)
         ∨ client_cache s' = delete key (client_cache s))).
  { intros cache' Hins Hdel s' ->.
    unfold bind, new_client, try_except, client_init, ret, raise.
    autorewrite with state.
    destruct (w_init W (trace s) (length (objects s)) psid psidts) as [[]|e].
    - exists true. simpl. autorewrite with state.
      split; [|by auto].
      unfold set_running. autorewrite with state.
      rewrite list_lookup_middle by done. simpl.
      rewrite insert_app_r_alt by done. by rewrite Nat.sub_diag.
    - exists false. simpl. autorewrite with state. by auto. }
  unfold get_client_for_cookies. fold key.
  destruct (client_cache s !! key) as [client|] eqn:Hc.
  - rewrite (Hdead client Hc).
    eapply Hgen; [apply insert_delete_eq | reflexivity | reflexivity].
  - eapply (Hgen (client_cache s)); [done | symmetry; by apply delete_id |].
    by destruct s.
Qed.

End Steps.

#[global] Instance keeping_preorder (I : state → Prop) : PreOrder (keeping I).
Proof. split; unfold keeping; [by intros s | by intros s1 s2 s3 H1 H2 H; auto]. Qed.

Section Handlers.

Context (W : World) (R : relation state) `{!PreOrder R}.

Hypothesis quiet_in_R : ∀ s s', quiet_step s s' → R s s'.

Lemma within_quiet {A} (m : M A) : within quiet_step m → within R m.
Proof. intros H s. apply quiet_in_R, H. Qed.

Lemma within_try_prompts client m prompts :
  ∀ last_error, within R (try_prompts W client m prompts last_error).
Proof.
  induction prompts as [|p rest IH]; intros last_error; simpl.
  - apply within_ret; done.
  - apply within_bind; [done | |].
    + apply within_try_except; [done | | intros; by apply within_ret].
      apply within_bind; [done | |].
      * apply within_quiet, quiet_client_generate_content.
      * intros response.
        destruct (shape_generated_images (images response));
          by apply within_ret.
    + intros [resp|le]; [by apply within_ret | apply IH].
Qed.

Lemma within_stage_upload file : within R (stage_upload W file).
Proof.
  unfold stage_upload. apply within_bind; [done | |].
  - apply within_quiet, quiet_named_temporary_file.
  - intros path. apply within_bind; [done | by apply within_lift |].
    intros; by apply within_ret.
Qed.

Lemma within_stage_files files :
  ∀ staged, within R (stage_files W files staged).
Proof.
  induction files as [|file rest IH]; intros staged; simpl.
  - by apply within_ret.
  - intros s. assert (H1 := within_stage_upload file s).
    destruct (stage_upload W file s) as [[path|e] s1]; [|done].
    etrans; [exact H1 | apply IH].
Qed.

Lemma within_cleanup_temp_files paths :
  within R (cleanup_temp_files W paths).
Proof.
  induction paths as [|path rest IH]; simpl.
  - by apply within_ret.
  - apply within_bind; [done | | intros; apply IH].
    apply within_try_except; [done | | intros; by apply within_ret].
    apply within_quiet, quiet_os_unlink.
Qed.

Section Request.

Context (r : Request).

Hypothesis acquire_in_R : ∀ psid psidts,
  extract_cookies_from_request r = (Some psid, psidts) →
  psid ≠ "" →
  within R (get_client_for_cookies W psid psidts).

Lemma within_require_client detail : within R (require_client W r detail).
Proof.
  unfold require_client.
  destruct (extract_cookies_from_request r) as [[[|c p]|] psidts] eqn:E;
    simpl; try by apply within_raise.
  by apply acquire_in_R.
Qed.

Lemma within_download_image u : within R (download_image W u r).
Proof.
  unfold download_image.
  destruct (extract_cookies_from_request r) as [[[|c p]|] psidts] eqn:E;
    simpl; try by apply within_raise.
  apply within_try_except; [done | | intros; by apply within_raise].
  apply within_bind; [done | by apply acquire_in_R |]. intros client.
  apply within_bind; [done | apply within_quiet, quiet_save_image |].
  intros [path|]; [|by apply within_raise].
  destruct (PyStr.truthy path && w_exists W path); [|by apply within_raise].
  apply within_bind; [done | by apply within_lift |].
  intros; by apply within_ret.
Qed.

Ltac within_steps :=
  repeat first
    [ progress intros
    | apply within_ret; [done]
    | apply within_raise; [done]
    | apply within_lift; [done]
    | apply within_require_client
    | apply within_download_image
    | apply within_try_prompts
    | apply within_stage_upload
    | apply within_stage_files
    | apply within_cleanup_temp_files
    | apply within_quiet, quiet_client_generate_content
    | apply within_quiet, quiet_client_chat
    | apply within_quiet, quiet_os_unlink
    | apply within_bind; [done | |]
    | apply within_try_except; [done | |]
    | apply within_try_finally; [done | |]
    | case_match ].

(** Whatever relation the quiet steps and the acquire step stay within, a
    whole request stays within. *)
Lemma within_handle call : within R (handle W call r).
Proof.
  destruct call; simpl;
    unfold generate_content, chat_with_history, generate_image,
      test_image_generation, edit_image, generate_with_files;
    within_steps.
Qed.

End Request.

End Handlers.

(** ** What a request can touch *)

Lemma forallb_weaken {A} (f g : A → bool) (l : list A) :
  (∀ x, f x = true → g x = true) → forallb f l = true → forallb g l = true.
Proof.
  intros Hfg. induction l as [|x l IH]; simpl; [done|].
  intros H. apply andb_true_iff in H as [Hx Hl].
  by rewrite (Hfg x Hx), (IH Hl).
Qed.

Lemma grown_by_weaken (f g : event → bool) s s' :
  (∀ e, f e = true → g e = true) → grown_by f s s' → grown_by g s s'.
Proof.
  intros Hfg (evs & Ht & Hok). exists evs. split; [done|].
  by eapply forallb_weaken.
Qed.

Lemma quiet_isolated k s s' : quiet_step s s' → isolated k s s'.
Proof. intros (Hc & Ho & _). split; [by rewrite Hc | by rewrite Ho]. Qed.

Lemma quiet_no_close s s' :
  quiet_step s s' → grown_by (fun e => negb (is_close e)) s s'.
Proof.
  intros (_ & _ & Hg). eapply grown_by_weaken; [|exact Hg].
  intros e. unfold session_event. by destruct (is_init e), (is_close e).
Qed.

Section Isolation.

Context (W : World).

Lemma acquire_isolated psid psidts :
  within (isolated (cache_key psid psidts))
         (get_client_for_cookies W psid psidts).
Proof.
  intros s.
  destruct (get_client_effect W psid psidts s)
    as [->|(flag & Ho & _ & _ & Hc)]; [reflexivity|].
  split.
  - intros k' Hk'. destruct Hc as [-> | ->].
    + by rewrite lookup_insert_ne.
    + by rewrite lookup_delete_ne.
  - rewrite Ho. by apply prefix_app_r.
Qed.

Lemma acquire_no_close psid psidts :
  within (grown_by (fun e => negb (is_close e)))
         (get_client_for_cookies W psid psidts).
Proof.
  intros s.
  destruct (get_client_effect W psid psidts s)
    as [->|(flag & _ & Ht & _)]; [reflexivity|].
  by exists [EInit (length (objects s))].
Qed.

(** X4: the acquire step changes no cache entry but the one of its own
    key, leaves every existing client object as it is, adds nothing to the
    temporary files and never closes a session: a dead session is dropped
    from the cache without a [close]. *)
Theorem acquire_touches_own_key psid psidts s :
  (∀ k, k ≠ cache_key psid psidts →
        client_cache (get_client_for_cookies W psid psidts s).2 !! k
        = client_cache s !! k)
  ∧ (∀ c o, objects s !! c = Some o →
            objects (get_client_for_cookies W psid psidts s).2 !! c = Some o)
  ∧ temp_files (get_client_for_cookies W psid psidts s).2 = temp_files s
  ∧ ∀ c, closes c (trace (get_client_for_cookies W psid psidts s).2)
         = closes c (trace s).
Proof.
  destruct (acquire_isolated psid psidts s) as [Hk Hpre].
  split; [exact Hk|].
  split; [intros c o Ho; by eapply prefix_lookup_Some|].
  destruct (get_client_effect W psid psidts s)
    as [->|(flag & _ & Ht & Hf & _)]; [done|].
  split; [exact Hf|].
  intros c. rewrite Ht, closes_snoc. simpl. lia.
Qed.

(** X5: a request changes no cache entry but the one of the key of its own
    cookies, whatever the route and the outcome. *)
Theorem request_touches_own_key call r s :
  ∀ k, k ≠ request_key r →
       client_cache (handle W call r s).2 !! k = client_cache s !! k.
Proof.
  assert (H : isolated (request_key r) s (handle W call r s).2).
  { apply (within_handle W (isolated (request_key r))).
    - apply quiet_isolated.
    - intros psid psidts E _. unfold request_key. rewrite E.
      apply acquire_isolated. }
  by destruct H as [Hk _].
Qed.

(** X6: no request ever closes a session: whatever the route and the
    outcome, the trace only grows, and by no [close]. *)
Theorem handlers_never_close call r s :
  (∃ evs, trace (handle W call r s).2 = (trace s ++ evs)%list)
  ∧ ∀ c, closes c (trace (handle W call r s).2) = closes c (trace s).
Proof.
  assert (H : grown_by (fun e => negb (is_close e)) s (handle W call r s).2).
  { apply (within_handle W (grown_by (fun e => negb (is_close e)))).
    - apply quiet_no_close.
    - intros psid psidts _ _. apply acquire_no_close. }
  destruct H as (evs & Ht & Hok). split; [by exists evs|].
  intros c. rewrite Ht. unfold closes. rewrite filter_app, length_app.
  replace (filter (fun e => is_close_of c e = true) evs) with (@nil event);
    [simpl; lia|].
  symmetry. clear Ht. induction evs as [|e evs IH]; [done|].
  simpl in Hok. apply andb_true_iff in Hok as [He Hevs].
  rewrite filter_cons, decide_False; [by apply IH|].
  destruct e; simpl in *; try done.
Qed.

End Isolation.

(** ** Invariants of the reachable states *)

Lemma keyed_initial : keyed initial_state.
Proof. intros k c H. simpl in H. by rewrite lookup_empty in H. Qed.

Lemma quiet_keeps_keyed s s' : quiet_step s s' → keeping keyed s s'.
Proof. intros (Hc & Ho & _) H k c. rewrite Hc, Ho. apply H. Qed.

Lemma drift_keeps_keyed s s' : liveness_drift s s' → keeping keyed s s'.
Proof.
  intros (Hc & Hcred & _) H k c Hk. rewrite Hc in Hk.
  destruct (H k c Hk) as (o & Ho & Hkey).
  assert (Hl : (credentials <$> objects s') !! c = Some (credentials o)).
  { by rewrite Hcred, list_lookup_fmap, Ho. }
  rewrite list_lookup_fmap in Hl.
  destruct (objects s' !! c) as [o'|]; [|done].
  exists o'. split; [done|].
  injection Hl as H1 H2. by rewrite H1, H2.
Qed.

Lemma inits_snoc client tr e :
  inits client (tr ++ [e])
  = (inits client tr + (if is_init_of client e then 1 else 0))%nat.
Proof.
  unfold inits. rewrite filter_app, length_app. f_equal.
  rewrite filter_cons, filter_nil.
  destruct (is_init_of client e); reflexivity.
Qed.

Lemma inits_quiet client tr evs :
  forallb (fun e => negb (session_event e)) evs = true →
  inits client (tr ++ evs) = inits client tr.
Proof.
  intros Hok. unfold inits. rewrite filter_app, length_app.
  replace (filter (fun e => is_init_of client e = true) evs) with (@nil event);
    [simpl; lia|].
  symmetry. induction evs as [|e evs IH]; [done|].
  simpl in Hok. apply andb_true_iff in Hok as [He Hevs].
  rewrite filter_cons, decide_False; [by apply IH|].
  destruct e; simpl in *; try done.
Qed.

Lemma initialised_once_initial : initialised_once initial_state.
Proof. intros client. simpl. by destruct (decide (client < 0)%nat); [lia|]. Qed.

Lemma quiet_keeps_initialised_once s s' :
  quiet_step s s' → keeping initialised_once s s'.
Proof.
  intros (_ & Ho & evs & Ht & Hok) H client.
  rewrite Ht, Ho, inits_quiet by done. apply H.
Qed.

Lemma drift_keeps_initialised_once s s' :
  liveness_drift s s' → keeping initialised_once s s'.
Proof.
  intros (_ & Hcred & _ & Ht) H client. rewrite Ht.
  rewrite <- (length_fmap credentials (objects s')), Hcred, length_fmap.
  apply H.
Qed.

Section Reachable.

Context (W : World).

Lemma acquire_keeps_keyed psid psidts :
  within (keeping keyed) (get_client_for_cookies W psid psidts).
Proof.
  intros s H.
  destruct (get_client_effect W psid psidts s)
    as [->|(flag & Ho & _ & _ & Hc)]; [done|].
  assert (Hold : ∀ k c, client_cache s !! k = Some c →
            ∃ o, objects (get_client_for_cookies W psid psidts s).2 !! c
                 = Some o
                 ∧ cache_key (secure_1psid o) (secure_1psidts o) = k).
  { intros k c Hk. destruct (H k c Hk) as (o & Hco & Hkey).
    exists o. split; [|done]. rewrite Ho.
    rewrite lookup_app_l; [done|]. apply lookup_lt_is_Some. by eexists. }
  intros k c Hk. destruct Hc as [Hc|Hc]; rewrite Hc in Hk.
  - rewrite lookup_insert in Hk. case_decide as Hkey.
    + injection Hk as <-. subst k. eexists.
      split; [rewrite Ho; by apply list_lookup_middle | reflexivity].
    + by apply Hold.
  - apply lookup_delete_Some in Hk as [_ Hk]. by apply Hold.
Qed.

Lemma acquire_keeps_initialised_once psid psidts :
  within (keeping initialised_once) (get_client_for_cookies W psid psidts).
Proof.
  intros s H.
  destruct (get_client_effect W psid psidts s)
    as [->|(flag & Ho & Ht & _)]; [done|].
  intros client. rewrite Ht, Ho, inits_snoc, length_app, (H client). simpl.
  destruct (decide (client < length (objects s))%nat),
    (decide (client < length (objects s) + 1)%nat),
    (Nat.eqb_spec (length (objects s)) client); lia.
Qed.

Lemma reachable_keeps (I : state → Prop) :
  I initial_state →
  (∀ s s', quiet_step s s' → keeping I s s') →
  (∀ s s', liveness_drift s s' → keeping I s s') →
  (∀ psid psidts, within (keeping I) (get_client_for_cookies W psid psidts)) →
  ∀ s, reachable W s → I s.
Proof.
  intros Hinit Hquiet Hdrift Hacq s.
  induction 1 as [|s call r _ IH|s s' _ IH Hd].
  - exact Hinit.
  - by apply (within_handle W (keeping I) Hquiet r ltac:(auto) call s).
  - by apply (Hdrift s s').
Qed.

(** X7: in every state the server reaches, each cached session was
    constructed from cookies that give the key it is cached under; so the
    session a caller is handed was made from cookies with the caller's own
    cache key. *)
Theorem reachable_keyed s :
  reachable W s →
  keyed s
  ∧ ∀ psid psidts c s',
      get_client_for_cookies W psid psidts s = (Return c, s') →
      ∃ o, objects s' !! c = Some o
           ∧ cache_key (secure_1psid o) (secure_1psidts o)
             = cache_key psid psidts.
Proof.
  intros Hreach.
  assert (Hk : keyed s).
  { revert s Hreach. apply reachable_keeps.
    - apply keyed_initial.
    - apply quiet_keeps_keyed.
    - apply drift_keeps_keyed.
    - apply acquire_keeps_keyed. }
  split; [exact Hk|].
  intros psid psidts c s' Hget.
  assert (Hk' := acquire_keeps_keyed psid psidts s Hk).
  rewrite Hget in Hk'. simpl in Hk'.
  apply Hk'. by apply (get_client_returns W _ _ _ _ _ Hget).
Qed.

(** X8: in every state the server reaches, [init] was invoked exactly once
    on each client object ever constructed, and on nothing else: an
    initialisation is never repeated on the same object. *)
Theorem reachable_initialised_once s :
  reachable W s →
  ∀ client,
    inits client (trace s)
    = if decide (client < length (objects s))%nat then 1%nat else 0%nat.
Proof.
  revert s. apply (reachable_keeps initialised_once).
  - apply initialised_once_initial.
  - apply quiet_keeps_initialised_once.
  - apply drift_keeps_initialised_once.
  - apply acquire_keeps_initialised_once.
Qed.

End Reachable.

Lemma served_session_reachable : reachable quiet_world served_session.
Proof.
  apply (reach_handle quiet_world initial_state PostTestImageGen
           (cookies "__Secure-1PSID=ok")).
  apply reach_initial.
Qed.

Lemma reachable_keyed_witness : keyed served_session.
Proof.
  apply (reachable_keyed quiet_world served_session).
  apply served_session_reachable.
Defined.

Lemma reachable_initialised_once_witness :
  inits 0 (trace served_session) = 1%nat.
Proof.
  apply (reachable_initialised_once quiet_world served_session
           served_session_reachable 0%nat).
Defined.

(** ** The statuses of the routes *)

(** Membership in, and inclusion between, the short lists of statuses. *)
Ltac in_list :=
  first [ apply list_elem_of_here | apply list_elem_of_further; in_list ].

Ltac sub_list :=
  let x := fresh "x" in
  let H := fresh "H" in
  intros x H;
  repeat (apply elem_of_cons in H as [->|H]; [in_list|]);
  by apply elem_of_nil in H.

Ltac not_in_list H :=
  repeat (apply elem_of_cons in H as [H|H]; [discriminate|]);
  by apply elem_of_nil in H.

Lemma raises_in_ret {A} codes (a : A) : raises_in codes (ret a).
Proof. intros s e H. discriminate. Qed.

Lemma raises_in_http {A} codes code detail :
  code ∈ codes → raises_in codes (@raise A (HTTPException code detail)).
Proof. intros Hin s e [= <-]. by exists code, detail. Qed.

Lemma raises_in_mono {A} codes codes' (m : M A) :
  codes ⊆ codes' → raises_in codes m → raises_in codes' m.
Proof.
  intros Hsub H s e He. destruct (H s e He) as (code & detail & -> & Hin).
  exists code, detail. split; [done | by apply Hsub].
Qed.

Lemma raises_in_bind {A B} codes (m : M A) (k : A → M B) :
  raises_in codes m → (∀ a, raises_in codes (k a)) →
  raises_in codes (bind m k).
Proof.
  intros Hm Hk s e. unfold bind. specialize (Hm s).
  destruct (m s) as [[a|e0] s1]; simpl in *; [apply Hk|].
  intros [= <-]. by apply Hm.
Qed.

(** Whatever the body of a [try] raises, the handler decides. *)
Lemma raises_in_try_except {A} codes (m : M A) (h : exn → M A) :
  (∀ e, raises_in codes (h e)) → raises_in codes (try_except m h).
Proof.
  intros Hh s e. unfold try_except.
  destruct (m s) as [[a|e0] s1]; simpl; [discriminate | apply Hh].
Qed.

Lemma raises_in_try_finally {A} codes (m : M A) (fin : M unit) :
  raises_in codes m → raises_in codes fin →
  raises_in codes (try_finally m fin).
Proof.
  intros Hm Hf s e. unfold try_finally. specialize (Hm s).
  destruct (m s) as [o s1]. specialize (Hf s1).
  destruct (fin s1) as [[[]|e1] s2]; simpl in *; [apply Hm|].
  intros [= <-]. by apply Hf.
Qed.

Section Statuses.

Context (W : World).

Lemma raises_in_get_client psid psidts :
  raises_in [401%nat] (get_client_for_cookies W psid psidts).
Proof.
  intros s e He.
  destruct (get_client_for_cookies W psid psidts s) as [o s1] eqn:E.
  simpl in He. subst o.
  destruct (get_client_raises W _ _ _ _ _ E) as (_ & e0 & ->).
  eexists _, _. split; [reflexivity | in_list].
Qed.

Lemma raises_in_require_client r detail :
  raises_in [400%nat; 401%nat] (require_client W r detail).
Proof.
  unfold require_client.
  destruct (extract_cookies_from_request r) as [psid psidts].
  destruct (negb (PyStr.otruthy psid)).
  - apply raises_in_http. in_list.
  - eapply raises_in_mono; [|apply raises_in_get_client]. sub_list.
Qed.

Lemma raises_in_stage_files codes files :
  ∀ staged, raises_in codes (stage_files W files staged).
Proof.
  intros staged s e He.
  destruct (stage_files_total W files staged s) as (? & ? & ? & H).
  rewrite H in He. discriminate.
Qed.

Lemma raises_in_cleanup_temp_files codes paths :
  raises_in codes (cleanup_temp_files W paths).
Proof.
  intros s e He.
  destruct (cleanup_temp_files_total W paths s) as (? & H & _).
  rewrite H in He. discriminate.
Qed.

Lemma raises_in_handle call r : raises_in (statuses call) (handle W call r).
Proof.
  destruct call; simpl;
    unfold generate_content, chat_with_history, generate_image,
      test_image_generation, edit_image, generate_with_files, download_image.
  - apply raises_in_bind.
    + eapply raises_in_mono; [|apply raises_in_require_client]. sub_list.
    + intros. apply raises_in_try_except. intros. apply raises_in_http.
      in_list.
  - apply raises_in_bind.
    + eapply raises_in_mono; [|apply raises_in_require_client]. sub_list.
    + intros. apply raises_in_try_except. intros. apply raises_in_http.
      in_list.
  - apply raises_in_bind.
    + eapply raises_in_mono; [|apply raises_in_require_client]. sub_list.
    + intros. apply raises_in_try_except. intros. apply raises_in_http.
      in_list.
  - apply raises_in_bind.
    + eapply raises_in_mono; [|apply raises_in_require_client]. sub_list.
    + intros. apply raises_in_try_except. intros. apply raises_in_ret.
  - apply raises_in_bind.
    + eapply raises_in_mono; [|apply raises_in_require_client]. sub_list.
    + intros. apply raises_in_try_except. intros. apply raises_in_http.
      in_list.
  - apply raises_in_bind.
    + eapply raises_in_mono; [|apply raises_in_require_client]. sub_list.
    + intros. apply raises_in_bind; [apply raises_in_stage_files|].
      intros [staged failure].
      apply raises_in_try_finally; [|apply raises_in_cleanup_temp_files].
      apply raises_in_try_except. intros. apply raises_in_http. in_list.
  - destruct (extract_cookies_from_request r) as [psid psidts].
    destruct (negb (PyStr.otruthy psid)).
    + apply raises_in_http. in_list.
    + apply raises_in_try_except. intros. apply raises_in_http. in_list.
Qed.

(** X9: whatever the upstream and the file system do, a route answers
    with a status of its own short list, and what it raises is always an
    [HTTPException]: the download proxy never answers 401 and
    /test-image-gen never answers 500. *)
Theorem route_statuses call r s :
  status_of (handle W call r s).1 ∈ statuses call
  ∧ (∀ e, (handle W call r s).1 = Raise e →
          ∃ code detail, e = HTTPException code detail)
  ∧ (is_download call = true →
     status_of (handle W call r s).1 ≠ 401%nat)
  ∧ (call = PostTestImageGen →
     status_of (handle W call r s).1 ≠ 500%nat).
Proof.
  assert (Hin : status_of (handle W call r s).1 ∈ statuses call).
  { destruct (handle W call r s) as [[a|e] s1] eqn:E; simpl.
    - destruct call; in_list.
    - destruct (raises_in_handle call r s e) as (code & detail & -> & Hc);
        [by rewrite E | done]. }
  split; [exact Hin|]. split.
  - intros e He.
    destruct (raises_in_handle call r s e He) as (code & detail & -> & _).
    by exists code, detail.
  - split.
    + intros Hd Heq. rewrite Heq in Hin. destruct call; try done.
      not_in_list Hin.
    + intros -> Heq. rewrite Heq in Hin. not_in_list Hin.
Qed.

End Statuses.

(** ** Temporary files *)

Lemma filter_not_in_cons (path : string) (rest l : list string) :
  filter (fun p => p ∉ rest) (filter (fun p => p ≠ path) l)
  = filter (fun p => p ∉ path :: rest) l.
Proof.
  induction l as [|x l IH]; [done|].
  rewrite (filter_cons (fun p => p ≠ path)).
  rewrite (filter_cons (fun p => p ∉ path :: rest)).
  destruct (decide (x ≠ path)) as [Hne|Heq].
  - rewrite filter_cons.
    destruct (decide (x ∉ rest)) as [Hn|Hin].
    + rewrite decide_True; [by rewrite IH|].
      intros [?|?]%elem_of_cons; done.
    + rewrite decide_False; [done|].
      intros Hn. apply Hin. intros ?. apply Hn. by right.
  - rewrite decide_False; [done|].
    intros Hn. apply Heq. intros ->. apply Hn. by left.
Qed.

Lemma filter_not_in_fresh (paths l : list string) :
  (∀ p, p ∈ paths → p ∉ l) →
  filter (fun p => p ∉ paths) l = l.
Proof.
  intros H. induction l as [|x l IH]; [done|].
  rewrite filter_cons, decide_True.
  - rewrite IH; [done|]. intros p Hp Hin. apply (H p Hp). by right.
  - intros Hin. apply (H x Hin). by left.
Qed.

Lemma filter_not_in_self (paths : list string) :
  filter (fun p => p ∉ paths) (reverse paths) = [].
Proof.
  assert (H : ∀ l : list string,
            (∀ x, x ∈ l → x ∈ paths) → filter (fun p => p ∉ paths) l = []).
  { induction l as [|x l IH]; intros Hl; [done|].
    rewrite filter_cons, decide_False.
    - apply IH. intros y Hy. apply Hl. by right.
    - intros Hn. apply Hn, Hl. by left. }
  apply H. intros x Hx. by apply elem_of_reverse.
Qed.

Section TempFiles.

Context (W : World).

Lemma require_client_temp_files r detail s :
  temp_files (require_client W r detail s).2 = temp_files s.
Proof.
  unfold require_client.
  destruct (extract_cookies_from_request r) as [psid psidts].
  destruct (negb (PyStr.otruthy psid)); [done|].
  destruct (get_client_effect W (default "" psid) psidts s)
    as [->|(flag & _ & _ & Hf & _)]; done.
Qed.

(** A staged upload is one new temporary file.  When the file was made but
    reading the upload fails, the file stays behind. *)
Lemma stage_upload_cases file s :
  match stage_upload W file s with
  | (Return path, s1) => temp_files s1 = path :: temp_files s
  | (Raise e, s1) =>
      (w_mktemp W (trace s) (w_suffix W (filename file)) = Raise e ∧ s1 = s)
      ∨ (∃ path, w_mktemp W (trace s) (w_suffix W (filename file))
                 = Return path
                 ∧ read file = Raise e
                 ∧ temp_files s1 = path :: temp_files s
                 ∧ trace s1 = (trace s ++ [EMkTemp path])%list)
  end.
Proof.
  unfold stage_upload, bind, named_temporary_file, lift, ret.
  destruct (w_mktemp W (trace s) (w_suffix W (filename file))) as [path|e];
    [|by left].
  destruct (read file) as [b|e]; simpl; [done|].
  right. by exists path.
Qed.

Lemma stage_files_staged files :
  ∀ staged0 s staged s2,
    stage_files W files staged0 s = (Return (staged, None), s2) →
    ∃ new, staged = (staged0 ++ new)%list
           ∧ temp_files s2 = (reverse new ++ temp_files s)%list
           ∧ length new = length files.
Proof.
  induction files as [|file rest IH]; intros staged0 s staged s2 H;
    simpl in H.
  - injection H as <- <-. exists []. by rewrite app_nil_r.
  - assert (Hup := stage_upload_cases file s).
    destruct (stage_upload W file s) as [[path|e] s1]; [|discriminate].
    destruct (IH _ _ _ _ H) as (new & -> & Ht & Hlen).
    exists (path :: new). rewrite <- app_assoc. split; [done|].
    rewrite Ht, Hup, reverse_cons, <- app_assoc. simpl. by rewrite Hlen.
Qed.

Lemma cleanup_temp_files_removes paths :
  (∀ tr p, w_unlink W tr p = Return ()) →
  ∀ s, temp_files (cleanup_temp_files W paths s).2
       = filter (fun p => p ∉ paths) (temp_files s).
Proof.
  intros Hunlink. induction paths as [|path rest IH]; intros s; simpl.
  - symmetry. apply filter_not_in_fresh. intros p Hp. by apply elem_of_nil in Hp.
  - unfold bind at 1, try_except, os_unlink. rewrite Hunlink.
    rewrite IH. simpl. apply filter_not_in_cons.
Qed.

(** X10: in /generate-with-files, when every upload was staged and
    [os.unlink] works, the temporary files after the request are those from
    before it, whether the upstream call succeeded or failed: each staged
    file was removed again. *)
Theorem generate_with_files_cleans_up p model_name files r s client s1
    staged s2 :
  require_client W r missing_cookie_detail s = (Return client, s1) →
  stage_files W files [] s1 = (Return (staged, None), s2) →
  (∀ path, path ∈ staged → path ∉ temp_files s) →
  (∀ tr path, w_unlink W tr path = Return ()) →
  temp_files (generate_with_files W p model_name files r s).2 = temp_files s
  ∧ length staged = length files
  ∧ ∃ before,
      trace (generate_with_files W p model_name files r s).2
      = (before ++ EGenerate client p staged (model_mapping_get model_name)
                :: (EUnlink <$> staged))%list.
Proof.
  intros Hclient Hstage Hfresh Hunlink.
  assert (Hs1 : temp_files s1 = temp_files s).
  { rewrite <- (require_client_temp_files r missing_cookie_detail s).
    by rewrite Hclient. }
  destruct (stage_files_staged files [] s1 staged s2 Hstage)
    as (new & Hnew & Ht2 & Hlen). simpl in Hnew. subst new.
  unfold generate_with_files, bind. rewrite Hclient, Hstage.
  unfold try_finally, try_except, bind, client_generate_content, ret, raise.
  set (s3 := log (EGenerate client p staged (model_mapping_get model_name)) s2).
  assert (Hfin : temp_files (cleanup_temp_files W staged s3).2 = temp_files s
                 ∧ trace (cleanup_temp_files W staged s3).2
                   = (trace s2
                      ++ EGenerate client p staged
                           (model_mapping_get model_name)
                      :: (EUnlink <$> staged))%list).
  { split.
    - rewrite cleanup_temp_files_removes by done.
      unfold s3. autorewrite with state.
      rewrite Ht2, filter_app, filter_not_in_self, Hs1. simpl.
      by apply filter_not_in_fresh.
    - destruct (cleanup_temp_files_total W staged s3) as (s4 & -> & Ht & _).
      simpl. rewrite Ht. unfold s3. autorewrite with state.
      by rewrite <- app_assoc. }
  destruct Hfin as [Hf Htr].
  destruct (w_generate W (trace s2) client p staged
              (model_mapping_get model_name)) as [response|e];
    fold s3;
    destruct (cleanup_temp_files W staged s3) as [[[]|e'] s4]; simpl in *;
    (split; [done|]); (split; [done|]); by eexists.
Qed.

(** X11: in /edit-image, when the upload was staged and [os.unlink]
    works, the staged file is gone after the request, whether the upstream
    call succeeded or failed. *)
Theorem edit_image_cleans_up p model_name image r s client s1 path s2 :
  require_client W r missing_cookie_detail s = (Return client, s1) →
  stage_upload W image s1 = (Return path, s2) →
  path ∉ temp_files s →
  (∀ tr, w_unlink W tr path = Return ()) →
  temp_files (edit_image W p model_name image r s).2 = temp_files s
  ∧ ∃ before,
      trace (edit_image W p model_name image r s).2
      = (before ++ [EGenerate client ("Edit this image: " ++ p) [path]
                      (model_mapping_get model_name);
                    EUnlink path])%list.
Proof.
  intros Hclient Hstage Hfresh Hunlink.
  assert (Hs1 : temp_files s1 = temp_files s).
  { rewrite <- (require_client_temp_files r missing_cookie_detail s).
    by rewrite Hclient. }
  assert (Ht2 := stage_upload_cases image s1). rewrite Hstage in Ht2.
  unfold edit_image, bind. rewrite Hclient.
  unfold try_except, bind. rewrite Hstage.
  unfold try_finally, bind, client_generate_content, os_unlink, ret, raise.
  assert (Hfilter : filter (fun p0 => p0 ≠ path) (temp_files s2)
                    = temp_files s).
  { rewrite Ht2, filter_cons, decide_False by (intros H; by apply H).
    rewrite Hs1.
    rewrite <- (filter_not_in_fresh [path] (temp_files s)) at 2.
    - rewrite <- (filter_not_in_cons path [] (temp_files s)).
      symmetry. apply filter_not_in_fresh.
      intros x Hx. by apply elem_of_nil in Hx.
    - intros x Hx. apply list_elem_of_singleton in Hx as ->. done. }
  destruct (w_generate W (trace s2) client ("Edit this image: " ++ p) [path]
              (model_mapping_get model_name)) as [response|e]; simpl;
    autorewrite with state; rewrite Hunlink; simpl;
    rewrite Hfilter; (split; [done|]);
    exists (trace s2); by rewrite <- app_assoc.
Qed.

(** X12: in /edit-image, when the temporary file was made but reading the
    upload fails, the answer is a 500 with the read error and the file is
    left on disk: no [os.unlink] is attempted. *)
Theorem edit_image_read_failure_leaks p model_name image r s client s1 path e :
  require_client W r missing_cookie_detail s = (Return client, s1) →
  w_mktemp W (trace s1) (w_suffix W (filename image)) = Return path →
  read image = Raise e →
  (edit_image W p model_name image r s).1
  = Raise (HTTPException 500 ("Failed to edit image: " ++ str_exn W e))
  ∧ temp_files (edit_image W p model_name image r s).2
    = path :: temp_files s
  ∧ trace (edit_image W p model_name image r s).2
    = (trace s1 ++ [EMkTemp path])%list.
Proof.
  intros Hclient Hmk Hread.
  assert (Hs1 : temp_files s1 = temp_files s).
  { rewrite <- (require_client_temp_files r missing_cookie_detail s).
    by rewrite Hclient. }
  unfold edit_image, bind. rewrite Hclient.
  unfold try_except, bind, stage_upload, bind, named_temporary_file, lift.
  rewrite Hmk, Hread. simpl. by rewrite Hs1.
Qed.

End TempFiles.

Lemma generate_with_files_cleans_up_witness :
  temp_files (generate_with_files quiet_world "compare" "gemini-2.5-pro"
                [sample_upload] (cookies "__Secure-1PSID=ok") ok_session).2
  = temp_files ok_session.
Proof.
  destruct (generate_with_files_cleans_up quiet_world "compare"
              "gemini-2.5-pro" [sample_upload] (cookies "__Secure-1PSID=ok")
              ok_session 0%nat ok_session ["/tmp/upload.png"]
              (stage_files quiet_world [sample_upload] [] ok_session).2)
    as [H _]; [reflexivity | reflexivity | | reflexivity | exact H].
  intros path _ Hin. by apply elem_of_nil in Hin.
Defined.

Lemma edit_image_cleans_up_witness :
  temp_files (edit_image quiet_world "brighter" "gemini-2.5-flash"
                sample_upload (cookies "__Secure-1PSID=ok") ok_session).2
  = temp_files ok_session.
Proof.
  destruct (edit_image_cleans_up quiet_world "brighter" "gemini-2.5-flash"
              sample_upload (cookies "__Secure-1PSID=ok") ok_session 0%nat
              ok_session "/tmp/upload.png"
              (stage_upload quiet_world sample_upload ok_session).2)
    as [H _]; [reflexivity | reflexivity | | reflexivity | exact H].
  intros Hin. by apply elem_of_nil in Hin.
Defined.

Lemma edit_image_read_failure_leaks_witness :
  temp_files (edit_image quiet_world "brighter" "gemini-2.5-flash"
                {| filename := "photo.png";
                   read := Raise (Exception "connection reset") |}
                (cookies "__Secure-1PSID=ok") ok_session).2
  = ["/tmp/upload.png"].
Proof.
  destruct (edit_image_read_failure_leaks quiet_world "brighter"
              "gemini-2.5-flash"
              {| filename := "photo.png";
                 read := Raise (Exception "connection reset") |}
              (cookies "__Secure-1PSID=ok") ok_session 0%nat ok_session
              "/tmp/upload.png" (Exception "connection reset"))
    as (_ & H & _); [reflexivity | reflexivity | reflexivity | exact H].
Defined.

(** ** Model names *)

(** X13: the names advertised by /models are exactly the names the
    handlers recognise: they map onto the four members, one each, and any
    other name, like the default of the request bodies, selects
    [G_2_5_FLASH] without an error. *)
Theorem model_names (name : string) :
  (name ∉ list_models.*1 → model_mapping_get name = G_2_5_FLASH)
  ∧ model_mapping_get <$> list_models.*1
    = [G_3_0_PRO; G_2_5_PRO; G_2_5_FLASH; UNSPECIFIED]
  ∧ model_mapping_get default_model_name = G_2_5_FLASH
  ∧ (model_mapping_get name ≠ G_2_5_FLASH → name ∈ list_models.*1).
Proof.
  assert (H : name ∉ list_models.*1 → model_mapping_get name = G_2_5_FLASH).
  { intros Hn. unfold model_mapping_get.
    destruct (String.eqb_spec name "gemini-3.0-pro") as [->|_].
    { exfalso. apply Hn. simpl. in_list. }
    destruct (String.eqb_spec name "gemini-2.5-pro") as [->|_].
    { exfalso. apply Hn. simpl. in_list. }
    destruct (String.eqb_spec name "gemini-2.5-flash") as [->|_]; [done|].
    destruct (String.eqb_spec name "unspecified") as [->|_]; [|done].
    exfalso. apply Hn. simpl. in_list. }
  split; [exact H|]. split; [reflexivity|]. split; [reflexivity|].
  intros Hne. destruct (decide (name ∈ list_models.*1)); [done|].
  by destruct Hne; apply H.
Qed.

(** ** Chat continuation across requests *)

(** X14: the chat request built from the three identifiers of a chat
    response hands upstream what upstream had returned: the first two
    entries of the response metadata and the candidate id, the empty ones
    left out (identifiers the response lacked come back as empty strings
    and are dropped). *)
Theorem chat_follow_up (p m : string) (response : ModelOutput) :
  chat_metadata_list (follow_up p m (chat_response response))
  = filter (fun t => PyStr.truthy t = true)
           (take 2 (metadata response) ++ [rcid response])%list.
Proof.
  unfold chat_metadata_list, follow_up, chat_response. simpl.
  destruct (metadata response) as [|[|a c] [|[|b r] rest]];
    destruct (rcid response); reflexivity.
Qed.

(** ** Shutdown when closing fails *)

Section ShutdownFailure.

Context (W : World).

Lemma close_running_raises clients :
  ∀ s,
    (∃ client, client ∈ clients ∧ is_running s client = true) →
    (∀ tr client, client ∈ clients → is_running s client = true →
                  ∃ e, w_close W tr client = Raise e) →
    ∃ e s', close_running W clients s = (Raise e, s')
            ∧ client_cache s' = client_cache s.
Proof.
  induction clients as [|c rest IH]; intros s (client & Hin & Hr) Hclose.
  - by apply elem_of_nil in Hin.
  - simpl. unfold bind at 1.
    destruct (is_running s c) eqn:Hc.
    + destruct (Hclose (trace s) c) as [e He]; [by left | done |].
      unfold client_close. rewrite He.
      eexists _, _. split; [reflexivity|].
      by rewrite set_running_cache.
    + apply IH.
      * exists client. split; [|done].
        apply elem_of_cons in Hin as [->|Hin]; [congruence | done].
      * intros tr c' Hin' Hr'. apply Hclose; [by right | done].
Qed.

(** X15: when some session is live and upstream [close] raises for the
    live sessions, [shutdown_event] raises in its turn and the cache is not
    cleared: its entries are all still there. *)
Theorem shutdown_close_failure s :
  (∃ client, live_entry s client) →
  (∀ tr client, live_entry s client → ∃ e, w_close W tr client = Raise e) →
  ∃ e s', shutdown_event W s = (Raise e, s')
          ∧ client_cache s' = client_cache s.
Proof.
  intros (client & Hstored & Hr) Hclose.
  destruct (close_running_raises (map_to_list (client_cache s)).*2 s)
    as (e & s' & Hrun & Hcache).
  - exists client. split; [by apply stored_clients | done].
  - intros tr c Hin Hrc. apply Hclose. split; [by apply stored_clients | done].
  - exists e, s'. unfold shutdown_event, bind. by rewrite Hrun.
Qed.

End ShutdownFailure.

Lemma shutdown_close_failure_witness :
  ∃ e s', shutdown_event unclosable_world served_session = (Raise e, s')
          ∧ client_cache s' = client_cache served_session.
Proof.
  apply (shutdown_close_failure unclosable_world served_session).
  - exists 0%nat. split; [by exists (cache_key "ok" None) | reflexivity].
  - intros tr client _. by eexists.
Defined.

(** ** Sessions across requests *)

Lemma bind_returns {A B} (m : M A) (k : A → M B) s a s1 :
  m s = (Return a, s1) → bind m k s = k a s1.
Proof. intros H. unfold bind. by rewrite H. Qed.

Lemma within_elim (R : relation state) {A} (m : M A) s :
  within R m → R s (m s).2.
Proof. intros H. apply H. Qed.

Ltac quiet_steps W :=
  repeat first
    [ progress intros
    | apply (within_ret quiet_step)
    | apply (within_raise quiet_step)
    | apply (within_lift quiet_step)
    | apply (within_try_prompts W quiet_step (fun _ _ H => H))
    | apply (within_stage_upload W quiet_step (fun _ _ H => H))
    | apply (within_stage_files W quiet_step (fun _ _ H => H))
    | apply (within_cleanup_temp_files W quiet_step (fun _ _ H => H))
    | apply quiet_client_generate_content
    | apply quiet_client_chat
    | apply quiet_os_unlink
    | apply quiet_save_image
    | apply (within_bind quiet_step)
    | apply (within_try_except quiet_step)
    | apply (within_try_finally quiet_step)
    | case_match ].

Section Reuse.

Context (W : World).

(** Once the acquire step has handed over a client, the rest of every
    handler is quiet. *)
Lemma handle_after_acquire call r s psid psidts client s1 :
  extract_cookies_from_request r = (Some psid, psidts) →
  psid ≠ "" →
  get_client_for_cookies W psid psidts s = (Return client, s1) →
  quiet_step s1 (handle W call r s).2.
Proof.
  intros Hx Hne Hget.
  assert (Hreq : ∀ detail,
            require_client W r detail s = (Return client, s1)).
  { intros detail. by rewrite (require_client_truthy W _ _ _ _ _ Hx Hne). }
  destruct call; simpl;
    unfold generate_content, chat_with_history, generate_image,
      test_image_generation, edit_image, generate_with_files;
    try (rewrite (bind_returns _ _ s client s1) by apply Hreq;
         apply within_elim; quiet_steps W).
  unfold download_image. rewrite Hx.
  destruct psid; [congruence|]. simpl.
  unfold try_except at 1. simpl in Hget.
  rewrite (bind_returns _ _ s client s1) by exact Hget.
  match goal with
  | |- quiet_step s1 (match ?m s1 with _ => _ end).2 =>
      assert (Hq : quiet_step s1 (m s1).2)
        by (apply within_elim; quiet_steps W);
      by destruct (m s1) as [[?|?] ?]
  end.
Qed.

(** X16: a request whose cookies have a cached session with a true
    liveness flag at that moment is served without any [init] and leaves
    the cache as it is, on every route and whatever the outcome. *)
Theorem live_session_serves_request call r s psid psidts client :
  extract_cookies_from_request r = (Some psid, psidts) →
  psid ≠ "" →
  client_cache s !! cache_key psid psidts = Some client →
  is_running s client = true →
  client_cache (handle W call r s).2 = client_cache s
  ∧ ∀ c, inits c (trace (handle W call r s).2) = inits c (trace s).
Proof.
  intros Hx Hne Hstored Hlive.
  assert (Hget := get_client_cached W psid psidts s client Hstored Hlive).
  destruct (handle_after_acquire call r s psid psidts client s Hx Hne Hget)
    as (Hc & _ & evs & Ht & Hok).
  split; [exact Hc|].
  intros c. rewrite Ht. by apply inits_quiet.
Qed.

(** X17: the acquire step never hands back a dead session: the client it
    returns is the one now stored under the key, and its liveness flag is
    true in the resulting state. *)
Theorem acquired_session_is_live psid psidts s client s1 :
  get_client_for_cookies W psid psidts s = (Return client, s1) →
  client_cache s1 !! cache_key psid psidts = Some client
  ∧ is_running s1 client = true
  ∧ (client < length (objects s1))%nat.
Proof.
  intros Hget.
  destruct (get_client_returns W _ _ _ _ _ Hget) as [Hstored Hlive].
  split; [done|]. split; [done|]. by apply is_running_lt.
Qed.

End Reuse.

Lemma live_session_serves_request_witness :
  client_cache (handle quiet_world PostTestImageGen
                  (cookies "__Secure-1PSID=ok") ok_session).2
  = client_cache ok_session.
Proof.
  apply (live_session_serves_request quiet_world PostTestImageGen
           (cookies "__Secure-1PSID=ok") ok_session "ok" None 0%nat);
    [reflexivity | discriminate | reflexivity | reflexivity].
Defined.

Lemma acquired_session_is_live_witness : is_running ok_session 0 = true.
Proof.
  apply (acquired_session_is_live quiet_world "ok" None initial_state 0%nat
           ok_session).
  reflexivity.
Defined.

(** ** Where the claims on the last error and on shutdown stop holding *)

(** C5 fails as stated: the second phrasing raises ["upstream timeout"],
    the two after it return without image, and the 500 carries the reason of
    the fourth attempt, in which the recorded exception no longer appears;
    and when no phrasing raises, the detail is again that reason, not the
    generic text. *)
Lemma generate_image_last_error_overwritten :
  attempt raising_second_world ok_session 0 G_2_5_FLASH
    (prompts_to_try "a cat") 1 = Raise (Exception "upstream timeout")
  ∧ generate_image raising_second_world
      {| ig_prompt := "a cat"; ig_model := "gemini-2.5-flash" |}
      (cookies "__Secure-1PSID=ok") ok_session
    = (Raise (HTTPException 500
                "Failed to generate image: No images generated with prompt: Make an image: a cat"),
       log_all [EGenerate 0 "Create an image of a cat" [] G_2_5_FLASH;
                EGenerate 0 "Generate a picture showing a cat" [] G_2_5_FLASH;
                EGenerate 0 "Draw a cat" [] G_2_5_FLASH;
                EGenerate 0 "Make an image: a cat" [] G_2_5_FLASH] ok_session)
  ∧ PyStr.contains "upstream timeout"
      "Failed to generate image: No images generated with prompt: Make an image: a cat"
    = false
  ∧ (generate_image quiet_world
       {| ig_prompt := "a cat"; ig_model := "gemini-2.5-flash" |}
       (cookies "__Secure-1PSID=ok") ok_session).1
    = Raise (HTTPException 500
               "Failed to generate image: No images generated with prompt: Make an image: a cat")
  ∧ (generate_image quiet_world
       {| ig_prompt := "a cat"; ig_model := "gemini-2.5-flash" |}
       (cookies "__Secure-1PSID=ok") ok_session).1
    ≠ Raise (HTTPException 500
               "Failed to generate image: Failed to generate image with all prompt variations").
Proof.
  split; [vm_compute; reflexivity|].
  split; [vm_compute; reflexivity|].
  split; [vm_compute; reflexivity|].
  split; [vm_compute; reflexivity|].
  vm_compute. discriminate.
Qed.

(** C8 fails as stated: with two live sessions cached and an upstream
    [close] that raises, [shutdown_event] raises at the first [close]; the
    cache still holds both entries and the second live session was never
    closed. *)
Lemma shutdown_aborts_on_close_failure :
  is_running two_sessions 0 = true
  ∧ is_running two_sessions 1 = true
  ∧ (shutdown_event unclosable_world two_sessions).1
    = Raise (Exception "connection lost")
  ∧ map_to_list (client_cache (shutdown_event unclosable_world two_sessions).2)
    = [("ok:", 0%nat); ("ok2:", 1%nat)]
  ∧ client_cache (shutdown_event unclosable_world two_sessions).2 ≠ ∅
  ∧ closes 0 (trace (shutdown_event unclosable_world two_sessions).2) = 1%nat
  ∧ closes 1 (trace (shutdown_event unclosable_world two_sessions).2) = 0%nat.
Proof.
  assert (Hl : map_to_list
                 (client_cache (shutdown_event unclosable_world two_sessions).2)
               = [("ok:", 0%nat); ("ok2:", 1%nat)])
    by (vm_compute; reflexivity).
  split; [vm_compute; reflexivity|].
  split; [vm_compute; reflexivity|].
  split; [vm_compute; reflexivity|].
  split; [exact Hl|].
  split; [|split; vm_compute; reflexivity].
  intros H. rewrite H, map_to_list_empty in Hl. discriminate Hl.
Qed.

(** A request with cookie ["ok2"] leaves the entry of cookie ["ok"] alone. *)
Lemma request_touches_own_key_witness :
  client_cache (handle quiet_world PostTestImageGen
                  (cookies "__Secure-1PSID=ok2") served_session).2
    !! cache_key "ok" None
  = client_cache served_session !! cache_key "ok" None.
Proof.
  apply (request_touches_own_key quiet_world PostTestImageGen
           (cookies "__Secure-1PSID=ok2") served_session (cache_key "ok" None)).
  vm_compute. discriminate.
Defined.
